(** * Markdown Brain Index Updater ([docs/update-index.py])

    A shallow embedding of the script's pipeline
    scan -> extract_metadata -> generate_index -> update_metadata_json,
    followed by the properties of that pipeline.

    A Python [str] is a sequence of code points.  It is held here as its
    UTF-8 encoding, in the Standard Library's [string], one [ascii] per
    byte.  Searching, splitting and comparing texts are the same on the
    encoding as on the code points; counting and cutting by characters
    ([len], [s[:n]]) and whitespace ([str.strip], [str.split]) go by the
    code points the bytes encode.  What the script takes from the Python
    it runs on -- the case tables of Unicode, the local time zone, the
    year as the C library prints it -- is a parameter, the class
    [Platform].  Reading a file, [os.stat] and writing a file may raise;
    [print] is taken never to. *)

From Stdlib Require Import String Ascii List Arith Bool Lia Permutation ZArith.
From Stdlib Require Import DecimalString Sorted OrderedTypeEx.
Import ListNotations.
Local Open Scope string_scope.
Local Open Scope list_scope.

(* ================================================================== *)
(** * Python builtins used by the script *)
(* ================================================================== *)

Module Py.

(** The line feed, written ['\n'] in the source. *)
Definition LF : ascii := ascii_of_nat 10.
Definition nl : string := String LF "".

(** Whether a character occurs in a text. *)
Fixpoint mentions (c0 : ascii) (s : string) : bool :=
  match s with
  | EmptyString => false
  | String c s' => Ascii.eqb c c0 || mentions c0 s'
  end.

(** *** Characters

    A byte from 80 to BF (hexadecimal) continues a character; any other
    byte starts one. *)
Definition is_continuation (c : ascii) : bool :=
  let n := nat_of_ascii c in Nat.leb 128 n && Nat.leb n 191.

(** [len(s)]: the number of characters. *)
Fixpoint len (s : string) : nat :=
  match s with
  | EmptyString => 0
  | String c s' => if is_continuation c then len s' else S (len s')
  end.

(** [s[:n]] and [s[n:]], cut where the character of index [n] starts. *)
Fixpoint take_chars (n : nat) (s : string) : string :=
  match s with
  | EmptyString => EmptyString
  | String c s' =>
      if is_continuation c then String c (take_chars n s')
      else
        match n with
        | O => EmptyString
        | S k => String c (take_chars k s')
        end
  end.

Fixpoint drop_chars (n : nat) (s : string) : string :=
  match s with
  | EmptyString => EmptyString
  | String c s' =>
      if is_continuation c then drop_chars n s'
      else
        match n with
        | O => s
        | S k => drop_chars k s'
        end
  end.

(** *** Whitespace

    The characters [str.isspace] accepts.  Those of one byte: TAB, LF, VT,
    FF, CR, the four information separators FS GS RS US, and the space. *)
Definition ascii_space (c : ascii) : bool :=
  let n := nat_of_ascii c in
  (Nat.leb 9 n && Nat.leb n 13) || (Nat.leb 28 n && Nat.leb n 32).

(** Those of two bytes: U+0085 (C2 85) and U+00A0 (C2 A0). *)
Definition two_byte_space (b0 b1 : ascii) : bool :=
  let n0 := nat_of_ascii b0 in
  let n1 := nat_of_ascii b1 in
  Nat.eqb n0 194 && (Nat.eqb n1 133 || Nat.eqb n1 160).

(** Those of three bytes: U+1680 (E1 9A 80); U+2000 to U+200A, U+2028,
    U+2029 and U+202F (E2 80 80 to 8A, A8, A9, AF); U+205F (E2 81 9F);
    U+3000 (E3 80 80). *)
Definition three_byte_space (b0 b1 b2 : ascii) : bool :=
  let n0 := nat_of_ascii b0 in
  let n1 := nat_of_ascii b1 in
  let n2 := nat_of_ascii b2 in
  (Nat.eqb n0 225 && Nat.eqb n1 154 && Nat.eqb n2 128)
  || (Nat.eqb n0 226 && Nat.eqb n1 128
      && ((Nat.leb 128 n2 && Nat.leb n2 138)
          || Nat.eqb n2 168 || Nat.eqb n2 169 || Nat.eqb n2 175))
  || (Nat.eqb n0 226 && Nat.eqb n1 129 && Nat.eqb n2 159)
  || (Nat.eqb n0 227 && Nat.eqb n1 128 && Nat.eqb n2 128).

(** The number of bytes of the whitespace character a text starts with, 0
    when it starts with none. *)
Definition ws_len (s : string) : nat :=
  match s with
  | EmptyString => 0
  | String b0 s1 =>
      if ascii_space b0 then 1
      else
        match s1 with
        | EmptyString => 0
        | String b1 s2 =>
            if two_byte_space b0 b1 then 2
            else
              match s2 with
              | EmptyString => 0
              | String b2 _ => if three_byte_space b0 b1 b2 then 3 else 0
              end
        end
  end.

(** *** Letter case of ASCII text

    [str.lower] and [str.title] on a text whose letters are all ASCII; the
    bytes of other characters are left as they are.  They serve the sample
    platform of the examples. *)
Definition isupper (c : ascii) : bool :=
  let n := nat_of_ascii c in Nat.leb 65 n && Nat.leb n 90.

Definition islower (c : ascii) : bool :=
  let n := nat_of_ascii c in Nat.leb 97 n && Nat.leb n 122.

Definition to_lower (c : ascii) : ascii :=
  if isupper c then ascii_of_nat (nat_of_ascii c + 32) else c.

Definition to_upper (c : ascii) : ascii :=
  if islower c then ascii_of_nat (nat_of_ascii c - 32) else c.

Fixpoint ascii_lower (s : string) : string :=
  match s with
  | EmptyString => EmptyString
  | String c s' => String (to_lower c) (ascii_lower s')
  end.

(** A cased character that follows an uncased one is put in upper case,
    one that follows a cased character in lower case. *)
Fixpoint title_from (previous_is_cased : bool) (s : string) : string :=
  match s with
  | EmptyString => EmptyString
  | String c s' =>
      if islower c || isupper c
      then String (if previous_is_cased then to_lower c else to_upper c)
                  (title_from true s')
      else String c (title_from false s')
  end.

Definition ascii_title (s : string) : string := title_from false s.

(** [s.replace(old, new)] for one-character [old] and [new]. *)
Fixpoint replace (old new : ascii) (s : string) : string :=
  match s with
  | EmptyString => EmptyString
  | String c s' =>
      String (if Ascii.eqb c old then new else c) (replace old new s')
  end.

(** [s.startswith(p)] *)
Definition startswith (p s : string) : bool := String.prefix p s.

(** [p in s] *)
Fixpoint contains (p s : string) : bool :=
  String.prefix p s ||
  match s with
  | EmptyString => false
  | String _ s' => contains p s'
  end.

(** The text without its first [n] bytes, and its first [n] bytes.  The
    script's [line[2:]] and the cut of a file name at its last dot fall
    after one-byte characters, where bytes and characters count alike. *)
Fixpoint slice_from (n : nat) (s : string) : string :=
  match n, s with
  | O, _ => s
  | S _, EmptyString => EmptyString
  | S k, String _ s' => slice_from k s'
  end.

Fixpoint slice_to (n : nat) (s : string) : string :=
  match n, s with
  | O, _ => EmptyString
  | S _, EmptyString => EmptyString
  | S k, String c s' => String c (slice_to k s')
  end.

(** [s.endswith(suffix)] *)
Definition endswith (suffix s : string) : bool :=
  Nat.leb (String.length suffix) (String.length s)
  && String.eqb (slice_from (String.length s - String.length suffix) s) suffix.

(** [s.lstrip()]: the text from its first character that is not
    whitespace. *)
Fixpoint lstrip (s : string) : string :=
  match s with
  | EmptyString => EmptyString
  | String _ s1 =>
      match ws_len s, s1 with
      | 0, _ => s
      | 1, _ => lstrip s1
      | 2, String _ s2 => lstrip s2
      | 3, String _ (String _ s3) => lstrip s3
      | _, _ => s
      end
  end.

(** [s.rstrip()]: the text up to where only whitespace follows. *)
Fixpoint rstrip (s : string) : string :=
  match s with
  | EmptyString => EmptyString
  | String c s' =>
      if String.eqb (lstrip s) EmptyString then EmptyString
      else String c (rstrip s')
  end.

(** [s.strip()] *)
Definition strip (s : string) : string := rstrip (lstrip s).

(** [s.lstrip(c)] for a one-character argument. *)
Fixpoint lstrip_char (c0 : ascii) (s : string) : string :=
  match s with
  | EmptyString => EmptyString
  | String c s' => if Ascii.eqb c c0 then lstrip_char c0 s' else s
  end.

(** [s.split(sep)] for a non-empty [sep]: occurrences are found left to
    right and do not overlap.  [skip] counts the characters of the
    occurrence being consumed, [cur] is the piece being built. *)
Fixpoint split_go (sep : string) (skip : nat) (cur s : string) : list string :=
  match s with
  | EmptyString => [cur]
  | String c s' =>
      match skip with
      | S k => split_go sep k cur s'
      | O =>
          if String.prefix sep s
          then cur :: split_go sep (String.length sep - 1) EmptyString s'
          else split_go sep 0 (cur ++ String c EmptyString) s'
      end
  end.

Definition split (sep s : string) : list string := split_go sep 0 EmptyString s.

(** [s.split()]: the maximal runs of characters that are not whitespace.
    [skip] counts the bytes left of the whitespace character being passed,
    [cur] is the word being built. *)
Definition flush (cur : string) : list string :=
  if String.eqb cur EmptyString then [] else [cur].

Fixpoint split_ws_go (skip : nat) (cur s : string) : list string :=
  match s with
  | EmptyString => flush cur
  | String c s' =>
      match skip with
      | S k => split_ws_go k cur s'
      | O =>
          match ws_len s with
          | O => split_ws_go 0 (cur ++ String c EmptyString) s'
          | S k => flush cur ++ split_ws_go k EmptyString s'
          end
      end
  end.

Definition split_ws (s : string) : list string := split_ws_go 0 EmptyString s.

(** [sep.join(l)] *)
Fixpoint join (sep : string) (l : list string) : string :=
  match l with
  | [] => EmptyString
  | [x] => x
  | x :: rest => x ++ sep ++ join sep rest
  end.

(** [str(n)] for a non-negative integer. *)
Definition str_of_nat (n : nat) : string :=
  NilZero.string_of_uint (Nat.to_uint n).

(** Exceptions the script can meet; each carries the text [str(e)] gives. *)
Inductive exception : Type :=
  | OSError (msg : string)
  | UnicodeDecodeError (msg : string)
  | UnicodeEncodeError (msg : string)
  | IndexError (msg : string)
  | KeyError (msg : string)
  | ValueError (msg : string)
  | OverflowError (msg : string).

Definition str_of_exception (e : exception) : string :=
  match e with
  | OSError m | UnicodeDecodeError m | UnicodeEncodeError m | IndexError m
  | KeyError m | ValueError m | OverflowError m => m
  end.

(** [l[0]] *)
Definition index0 {A : Type} (l : list A) : exception + A :=
  match l with
  | [] => inl (IndexError "list index out of range")
  | x :: _ => inr x
  end.

(** [sorted(l, key=key)] and [sorted(l, key=key, reverse=True)]: both are
    stable, so records with equal keys keep their input order. *)
Section Sorted.

Context {A K : Type} (key : A -> K) (ltb : K -> K -> bool).

Fixpoint insert_asc (x : A) (l : list A) : list A :=
  match l with
  | [] => [x]
  | y :: l' =>
      if ltb (key y) (key x) then y :: insert_asc x l' else x :: l
  end.

Fixpoint insert_desc (x : A) (l : list A) : list A :=
  match l with
  | [] => [x]
  | y :: l' =>
      if ltb (key x) (key y) then y :: insert_desc x l' else x :: l
  end.

Definition sorted (l : list A) : list A :=
  fold_right insert_asc [] l.

Definition sorted_reverse (l : list A) : list A :=
  fold_right insert_desc [] l.

(** [max(l, key=key)]: the first of the maximal elements. *)
Fixpoint max_from (best : A) (l : list A) : A :=
  match l with
  | [] => best
  | x :: l' => max_from (if ltb (key best) (key x) then x else best) l'
  end.

Definition max_by (l : list A) : exception + A :=
  match l with
  | [] => inl (ValueError "max() arg is an empty sequence")
  | x :: l' => inr (max_from x l')
  end.
End Sorted.

(** [pathlib.Path(p).name] and [.stem] for a POSIX path: the last component
    that is neither empty nor a single dot; the stem drops the suffix, which
    starts at the last dot of the name when that dot is neither its first nor
    its last character.  A dot is one byte, so it is first, or last, among
    the bytes when it is among the characters. *)
Definition path_name (p : string) : string :=
  last (filter (fun c => negb (String.eqb c "" || String.eqb c "."))
               (split "/" p)) "".

Fixpoint rfind_char (c0 : ascii) (s : string) : option nat :=
  match s with
  | EmptyString => None
  | String c s' =>
      match rfind_char c0 s' with
      | Some i => Some (S i)
      | None => if Ascii.eqb c c0 then Some 0 else None
      end
  end.

Definition stem_of_name (name : string) : string :=
  match rfind_char "." name with
  | Some i =>
      if Nat.ltb 0 i && Nat.ltb i (String.length name - 1)
      then slice_to i name else name
  | None => name
  end.

Definition path_stem (p : string) : string := stem_of_name (path_name p).

End Py.

(* ================================================================== *)
(** * [datetime.datetime] *)
(* ================================================================== *)

Module Datetime.

(** A naive datetime, as [datetime.fromtimestamp] and [datetime.now] give. *)
Record datetime : Type := mk_datetime {
  year : nat; month : nat; day : nat;
  hour : nat; minute : nat; second : nat; microsecond : nat
}.

Definition fields (d : datetime) : list nat :=
  [year d; month d; day d; hour d; minute d; second d; microsecond d].

(** Datetimes compare field by field, the year first. *)
Fixpoint lex_ltb (a b : list nat) : bool :=
  match a, b with
  | x :: a', y :: b' =>
      if Nat.ltb x y then true
      else if Nat.ltb y x then false
      else lex_ltb a' b'
  | [], _ :: _ => true
  | _, [] => false
  end.

Definition ltb (a b : datetime) : bool := lex_ltb (fields a) (fields b).

(** A decimal number padded with zeros on the left to [width] digits. *)
Definition zero_pad (width n : nat) : string :=
  let s := Py.str_of_nat n in
  String.concat "" (repeat "0" (width - String.length s)) ++ s.

(** [d.isoformat()]: the year has four digits, and the microseconds are
    printed only when not zero. *)
Definition isoformat (d : datetime) : string :=
  zero_pad 4 (year d) ++ "-" ++ zero_pad 2 (month d) ++ "-"
  ++ zero_pad 2 (day d) ++ "T" ++ zero_pad 2 (hour d) ++ ":"
  ++ zero_pad 2 (minute d) ++ ":" ++ zero_pad 2 (second d)
  ++ (if Nat.eqb (microsecond d) 0 then ""
      else "." ++ zero_pad 6 (microsecond d)).

End Datetime.

(* ================================================================== *)
(** * The platform *)
(* ================================================================== *)

Import Py.

(** What the script takes from the Python it runs on and from the machine:
    [str.lower] and [str.title], which go by the case tables of Unicode;
    [datetime.fromtimestamp], which goes by the local time zone and raises
    on a time it cannot show; and the year as [strftime] prints it for
    [%Y], which the C library pads with zeros to four digits or does not
    pad.  A time stamp is a number of microseconds since the epoch.  No
    case mapping of Unicode yields an underscore or a hyphen, which is all
    that is asked of [str.title]. *)
Class Platform : Type := {
  str_lower : string -> string;
  str_title : string -> string;
  fromtimestamp : Z -> exception + Datetime.datetime;
  strftime_year : nat -> string;
  title_adds_no_separator :
    forall (c : ascii) (s : string),
      c = "_"%char \/ c = "-"%char ->
      mentions c s = false -> mentions c (str_title s) = false;
  strftime_year_pads :
    forall year : nat,
      exists zeros : nat,
        strftime_year year =
        (String.concat "" (repeat "0"%string zeros) ++ str_of_nat year)%string
}.

(** [d.strftime('%Y-%m-%d')] *)
Definition strftime_date {T : Platform} (d : Datetime.datetime) : string :=
  strftime_year (Datetime.year d) ++ "-"
  ++ Datetime.zero_pad 2 (Datetime.month d) ++ "-"
  ++ Datetime.zero_pad 2 (Datetime.day d).

(** [d.strftime('%Y-%m-%d %H:%M')] *)
Definition strftime_minutes {T : Platform} (d : Datetime.datetime) : string :=
  strftime_date d ++ " " ++ Datetime.zero_pad 2 (Datetime.hour d) ++ ":"
  ++ Datetime.zero_pad 2 (Datetime.minute d).

(** The date of a day counted from the first day of 1970. *)
Definition civil_from_days (days : Z) : Z * Z * Z :=
  let z := (days + 719468)%Z in
  let era := (z / 146097)%Z in
  let doe := (z - era * 146097)%Z in
  let yoe := ((doe - doe / 1460 + doe / 36524 - doe / 146096) / 365)%Z in
  let doy := (doe - (365 * yoe + yoe / 4 - yoe / 100))%Z in
  let mp := ((5 * doy + 2) / 153)%Z in
  let d := (doy - (153 * mp + 2) / 5 + 1)%Z in
  let m := (if mp <? 10 then mp + 3 else mp - 9)%Z in
  let y := (yoe + era * 400 + (if m <=? 2 then 1 else 0))%Z in
  (y, m, d).

(** [datetime.fromtimestamp] where the local time is UTC: years from 1 to
    9999 can be shown. *)
Definition utc_fromtimestamp (t : Z) : exception + Datetime.datetime :=
  let seconds := (t / 1000000)%Z in
  let '(y, m, d) := civil_from_days (seconds / 86400) in
  let second_of_day := (seconds mod 86400)%Z in
  if ((1 <=? y) && (y <=? 9999))%Z then
    inr (Datetime.mk_datetime
           (Z.to_nat y) (Z.to_nat m) (Z.to_nat d)
           (Z.to_nat (second_of_day / 3600))
           (Z.to_nat (second_of_day mod 3600 / 60))
           (Z.to_nat (second_of_day mod 60))
           (Z.to_nat (t mod 1000000)))
  else
    inl (ValueError
           ("year " ++ NilZero.string_of_int (Z.to_int y) ++ " is out of range")).

(** The platform of the examples: a text whose letters are all ASCII, a
    clock on UTC, a C library that pads the year. *)
Definition ascii_utc : Platform.
Proof.
  refine {| str_lower := ascii_lower;
            str_title := ascii_title;
            fromtimestamp := utc_fromtimestamp;
            strftime_year := Datetime.zero_pad 4 |};
    [|intros year; eexists; reflexivity].
  intros c s Hc. unfold ascii_title.
  enough (forall b, mentions c s = false ->
                    mentions c (title_from b s) = false) as H by apply H.
  induction s as [|a s IH]; intros b H; [reflexivity|].
  cbn [mentions title_from] in *.
  apply orb_false_iff in H as [Ha Hs].
  destruct (islower a || isupper a) eqn:Hcased; cbn [mentions];
    rewrite (IH _ Hs), orb_false_r; [|exact Ha].
  destruct Hc as [-> | ->]; destruct b;
    destruct a as [[] [] [] [] [] [] [] []];
    first [reflexivity | discriminate Ha | discriminate Hcased].
Defined.

(* ================================================================== *)
(** * The script *)
(* ================================================================== *)

(** ** Configuration *)

Definition DOCS_DIR : string :=
  "/home/helye/Development/Projects/Work/Nextjs/moshimoshi/docs".
Definition INDEX_FILE : string := "INDEX.md".
Definition QUICK_REF_FILE : string := "QUICK_REFERENCE.md".

(** The categories mapping.  A Python dict iterates in insertion order, so
    the mapping is the list of its items in the order they are written. *)
Definition CATEGORY_PATTERNS : list (string * list string) :=
  [ ("Authentication System", ["auth"; "login"; "signin"; "signup"; "session"]);
    ("Admin & Management", ["admin"; "dashboard"; "management"]);
    ("Development & UI", ["ui"; "component"; "theme"; "development"; "log"]);
    ("API Documentation", ["api"; "endpoint"; "route"]);
    ("Security", ["security"; "permission"; "rate"; "audit"]);
    ("Configuration", ["config"; "setup"; "env"; "settings"]);
    ("Notes & Memos", ["memo"; "note"; "todo"; "reminder"]) ].

(** The list [tag_patterns] of [extract_metadata]. *)
Definition tag_patterns : list string :=
  ["authentication"; "ui"; "api"; "security"; "admin"; "development";
   "configuration"].

(** ** Records *)

Record Header : Type := mk_header { level : nat; text : string }.

(** The dict [metadata] of [extract_metadata]. *)
Record Metadata : Type := mk_metadata {
  title : string;
  category : string;
  tags : list string;
  summary : string;
  headers : list Header
}.

(** The dict [doc_info] of [scan_documents]; [doc_info.update(...)] adds the
    five keys of the metadata, kept here in [meta]. *)
Record Document : Type := mk_document {
  path : string;
  full_path : string;
  name : string;
  modified : Datetime.datetime;
  size : nat;
  meta : Metadata
}.

(** What [open(file_path, 'r')] followed by [f.read()] gives for each path:
    the decoded text, or the exception raised. *)
Definition FileSystem : Type := string -> exception + string.

(** ** The body of the [try] block

    The block updates the dict [metadata] in place and may raise at any
    point, in which case the updates made so far stay.  [Try A] is a
    computation on the dict that ends with an exception or with an [A]. *)

Definition Try (A : Type) : Type := Metadata -> Metadata * (exception + A).

Definition ret {A : Type} (a : A) : Try A := fun m => (m, inr a).

Definition bind {A B : Type} (c : Try A) (k : A -> Try B) : Try B :=
  fun m =>
    match c m with
    | (m', inl e) => (m', inl e)
    | (m', inr a) => k a m'
    end.

Definition lift {A : Type} (r : exception + A) : Try A := fun m => (m, r).

Declare Scope try_scope.
Delimit Scope try_scope with try.
Notation "x <- c ;; k" := (bind c (fun x => k))
  (at level 61, c at next level, right associativity) : try_scope.
Notation "c ;; k" := (bind c (fun _ => k))
  (at level 61, right associativity) : try_scope.

Definition set_title (t : string) : Try unit :=
  fun m => (mk_metadata t (category m) (tags m) (summary m) (headers m), inr tt).

Definition set_category (c : string) : Try unit :=
  fun m => (mk_metadata (title m) c (tags m) (summary m) (headers m), inr tt).

Definition append_tag (t : string) : Try unit :=
  fun m =>
    (mk_metadata (title m) (category m) (tags m ++ [t]) (summary m) (headers m),
     inr tt).

Definition set_summary (s : string) : Try unit :=
  fun m => (mk_metadata (title m) (category m) (tags m) s (headers m), inr tt).

Definition append_header (h : Header) : Try unit :=
  fun m =>
    (mk_metadata (title m) (category m) (tags m) (summary m) (headers m ++ [h]),
     inr tt).

Local Open Scope try_scope.

(** [for line in lines[:10]: if line.startswith('# '): ...; break] *)
Fixpoint title_loop (lines : list string) : Try unit :=
  match lines with
  | [] => ret tt
  | line :: rest =>
      if startswith "# " line
      then set_title (strip (slice_from 2 line))
      else title_loop rest
  end.

(** The body of the headers loop for one line. *)
Definition header_step (line : string) : Try unit :=
  if startswith "#" line then
    first_word <- lift (index0 (split_ws line)) ;;
    let level := len first_word in
    if Nat.leb level 3
    then append_header (mk_header level (strip (lstrip_char "#" line)))
    else ret tt
  else ret tt.

Fixpoint headers_loop (lines : list string) : Try unit :=
  match lines with
  | [] => ret tt
  | line :: rest => header_step line ;; headers_loop rest
  end.

(** [any(pattern in content_lower for pattern in patterns)] *)
Definition any_pattern_in (patterns : list string) (content_lower : string)
  : bool :=
  existsb (fun pattern => contains pattern content_lower) patterns.

(** [for category, patterns in CATEGORY_PATTERNS.items(): ...; break] *)
Fixpoint category_loop (items : list (string * list string))
    (content_lower : string) : Try unit :=
  match items with
  | [] => ret tt
  | (category, patterns) :: rest =>
      if any_pattern_in patterns content_lower
      then set_category category
      else category_loop rest content_lower
  end.

(** [for tag in tag_patterns: if tag in content_lower: ...append(f"#{tag}")] *)
Fixpoint tags_loop (patterns : list string) (content_lower : string)
  : Try unit :=
  match patterns with
  | [] => ret tt
  | tag :: rest =>
      (if contains tag content_lower then append_tag ("#" ++ tag) else ret tt) ;;
      tags_loop rest content_lower
  end.

(** The list comprehension that builds [paragraphs]. *)
Definition qualifies (p : string) : bool :=
  negb (String.eqb (strip p) "") && negb (startswith "#" (strip p)).

Definition paragraphs_of (content : string) : list string :=
  map strip (filter qualifies (split (nl ++ nl) content)).

(** [p[:200] + "..." if len(p) > 200 else p] *)
Definition truncate_summary (p : string) : string :=
  if Nat.ltb 200 (len p) then take_chars 200 p ++ "..." else p.

Definition summary_step (content : string) : Try unit :=
  match paragraphs_of content with
  | [] => ret tt
  | p :: _ => set_summary (truncate_summary p)
  end.

Definition try_body {T : Platform} (fs : FileSystem) (file_path : string)
  : Try unit :=
  content <- lift (fs file_path) ;;
  let lines := split nl content in
  title_loop (firstn 10 lines) ;;
  headers_loop lines ;;
  let content_lower := str_lower content in
  category_loop CATEGORY_PATTERNS content_lower ;;
  tags_loop tag_patterns content_lower ;;
  summary_step content.

Local Close Scope try_scope.

(** The title a file gets before its content is looked at. *)
Definition default_title {T : Platform} (file_path : string) : string :=
  str_title (replace "-" " " (replace "_" " " (path_stem file_path))).

Definition default_metadata {T : Platform} (file_path : string) : Metadata :=
  mk_metadata (default_title file_path) "Uncategorized" [] "" [].

(** [extract_metadata(file_path)]: the dict returned, and the lines printed.
    The [except Exception] clause catches whatever the block raises, prints
    it, and the dict is returned as the block left it. *)
Definition extract_metadata {T : Platform} (fs : FileSystem)
    (file_path : string) : Metadata * list string :=
  match try_body fs file_path (default_metadata file_path) with
  | (metadata, inl e) =>
      (metadata,
       [("Error processing " ++ file_path ++ ": " ++ str_of_exception e)%string])
  | (metadata, inr _) => (metadata, [])
  end.

(** ** Computations that may raise *)

Definition Exc (A : Type) : Type := (exception + A)%type.

Definition exc_bind {A B : Type} (c : Exc A) (k : A -> Exc B) : Exc B :=
  match c with
  | inl e => inl e
  | inr a => k a
  end.

Declare Scope exc_scope.
Delimit Scope exc_scope with exc.
Notation "x <- c ;; k" := (exc_bind c (fun x => k))
  (at level 61, c at next level, right associativity) : exc_scope.

(** ** [scan_documents]

    The directory tree [os.walk] goes through: the files of a directory with
    what [os.stat] gives for each, and its subdirectories, both in listing
    order.  The name of the top directory is not looked at: it is
    [DOCS_DIR]. *)

Record Stat : Type := mk_stat {
  st_mtime : Z;     (* the time stamp, in the microseconds
                       [datetime.fromtimestamp] rounds it to *)
  st_size : nat
}.

#[warnings="-register-all"]
Inductive Tree : Type :=
  | Dir (dir_name : string) (files : list (string * Exc Stat))
        (dirs : list Tree).

Definition dir_name_of (t : Tree) : string :=
  match t with Dir d _ _ => d end.

(** [os.path.join(root, file)] for a [root] without a final slash, and the
    same below the top directory, where the relative root is empty. *)
Definition path_join (root file : string) : string :=
  (root ++ "/" ++ file)%string.

Definition rel_join (rel file : string) : string :=
  if String.eqb rel "" then file else path_join rel file.

(** [file.endswith('.md') and file not in [INDEX_FILE, QUICK_REF_FILE]] *)
Definition eligible (file : string) : bool :=
  endswith ".md" file
  && negb (String.eqb file INDEX_FILE || String.eqb file QUICK_REF_FILE).

(** A scan prints lines as it goes and ends with a value or with an
    exception: the lines printed so far, and how it ended. *)
Definition Scan (A : Type) : Type := (list string * Exc A)%type.

Definition scan_ret {A : Type} (a : A) : Scan A := ([], inr a).

Definition scan_bind {A B : Type} (c : Scan A) (k : A -> Scan B) : Scan B :=
  match c with
  | (printed, inl e) => (printed, inl e)
  | (printed, inr a) =>
      let '(more, r) := k a in ((printed ++ more)%list, r)
  end.

(** A step that prints nothing. *)
Definition quiet {A : Type} (r : Exc A) : Scan A := ([], r).

Declare Scope scan_scope.
Delimit Scope scan_scope with scan.
Notation "x <- c ;; k" := (scan_bind c (fun x => k))
  (at level 61, c at next level, right associativity) : scan_scope.

Local Open Scope scan_scope.

(** The inner loop [for file in files]; [rel] is [root] relative to
    [DOCS_DIR].  The value is the list of the records appended. *)
Fixpoint scan_files {T : Platform} (fs : FileSystem) (root rel : string)
    (files : list (string * Exc Stat)) : Scan (list Document) :=
  match files with
  | [] => scan_ret []
  | (file, stat_result) :: rest =>
      if eligible file then
        let file_path := path_join root file in
        let rel_path := rel_join rel file in
        stats <- quiet stat_result ;;
        modified <- quiet (fromtimestamp (st_mtime stats)) ;;
        metadata <- (snd (extract_metadata fs file_path),
                     inr (fst (extract_metadata fs file_path))) ;;
        let doc_info :=
          mk_document rel_path file_path file modified (st_size stats)
                      metadata in
        more <- scan_files fs root rel rest ;;
        scan_ret (doc_info :: more)
      else scan_files fs root rel rest
  end.

(** The outer loop over [os.walk]: a directory, then the subdirectories left
    by [dirs[:] = [d for d in dirs if not d.startswith('.')]]. *)
Fixpoint scan_walk {T : Platform} (fs : FileSystem) (root rel : string)
    (t : Tree) : Scan (list Document) :=
  match t with
  | Dir _ files dirs =>
      here <- scan_files fs root rel files ;;
      below <-
        (fix scan_dirs (ds : list Tree) : Scan (list Document) :=
           match ds with
           | [] => scan_ret []
           | sub :: ds' =>
               let d := dir_name_of sub in
               if startswith "." d then scan_dirs ds'
               else
                 first <- scan_walk fs (path_join root d) (rel_join rel d) sub ;;
                 others <- scan_dirs ds' ;;
                 scan_ret (first ++ others)%list
           end) dirs ;;
      scan_ret (here ++ below)%list
  end.

Definition scan_documents {T : Platform} (fs : FileSystem) (docs_tree : Tree)
  : Scan (list Document) :=
  scan_walk fs DOCS_DIR "" docs_tree.

Local Close Scope scan_scope.

(** ** [generate_index] *)

(** [docs_by_category]: a dict from a category to the list of its records.
    [dict_append] is the two statements of the grouping loop. *)
Definition Groups : Type := list (string * list Document).

Fixpoint dict_append (category : string) (doc : Document) (d : Groups)
  : Groups :=
  match d with
  | [] => [(category, [doc])]
  | (k, docs) :: d' =>
      if String.eqb k category then (k, docs ++ [doc]) :: d'
      else (k, docs) :: dict_append category doc d'
  end.

Definition group_by_category (documents : list Document) : Groups :=
  fold_left (fun d doc => dict_append (category (meta doc)) doc d) documents [].

(** [d[key]] *)
Fixpoint dict_get (d : Groups) (key : string) : Exc (list Document) :=
  match d with
  | [] => inl (KeyError key)
  | (k, docs) :: d' => if String.eqb k key then inr docs else dict_get d' key
  end.

(** [all_tags]: a set of strings, kept as a list without repetition. *)
Definition set_add (s : list string) (x : string) : list string :=
  if existsb (String.eqb x) s then s else s ++ [x].

Definition set_update (s l : list string) : list string :=
  fold_left set_add l s.

Definition collect_tags (documents : list Document) : list string :=
  fold_left (fun s doc => set_update s (tags (meta doc))) documents [].

(** [sorted(documents, key=lambda x: x["modified"], reverse=True)] *)
Definition by_date (documents : list Document) : list Document :=
  sorted_reverse modified Datetime.ltb documents.

(** One line of the Quick Access section. *)
Definition quick_access_entry {T : Platform} (doc : Document) : string :=
  ("- [" ++ title (meta doc) ++ "](" ++ path doc ++ ") - "
   ++ strftime_date (modified doc) ++ nl)%string.

(** The lines the loop [for doc in docs_by_date[:5]] adds. *)
Definition quick_access {T : Platform} (docs_by_date : list Document)
  : list string :=
  map quick_access_entry (firstn 5 docs_by_date).

(** One line of a category section. *)
Definition category_entry (doc : Document) : string :=
  let summary :=
    (if String.eqb (summary (meta doc)) "" then ""
     else " - " ++ take_chars 60 (summary (meta doc)) ++ "...")%string in
  ("- [" ++ title (meta doc) ++ "](" ++ path doc ++ ")" ++ summary ++ nl)%string.

Local Open Scope exc_scope.

(** The loop [for category in sorted(docs_by_category.keys())]. *)
Fixpoint category_sections (docs_by_category : Groups)
    (categories : list string) : Exc string :=
  match categories with
  | [] => inr ""%string
  | category :: rest =>
      docs <- dict_get docs_by_category category ;;
      let section :=
        ("### " ++ category ++ nl
         ++ String.concat "" (map category_entry (sorted name String.ltb docs))
         ++ nl)%string in
      others <- category_sections docs_by_category rest ;;
      inr (section ++ others)%string
  end.

(** The four values of the statistics block, evaluated in this order. *)
Definition last_update {T : Platform} (docs_by_date : list Document)
  : Exc string :=
  match docs_by_date with
  | _ :: _ =>
      doc <- index0 docs_by_date ;;
      inr (strftime_minutes (modified doc))
  | [] => inr "N/A"%string
  end.

Definition largest_document (documents : list Document) : Exc string :=
  match documents with
  | _ :: _ =>
      doc <- max_by size Nat.ltb documents ;;
      inr (name doc)
  | [] => inr "N/A"%string
  end.

(** The two lines that open the index, up to the timestamp. *)
Definition index_head : string :=
  ("# 📚 Markdown Brain Index" ++ nl ++ nl ++ "> Last Updated: ")%string.

(** [generate_index(documents)]; [now] is the value of [datetime.now()]. *)
Definition generate_index {T : Platform} (now : Datetime.datetime)
    (documents : list Document) : Exc string :=
  let docs_by_date := by_date documents in
  let docs_by_category := group_by_category documents in
  let content :=
    (index_head ++ strftime_minutes now ++ nl
     ++ "> Total Documents: " ++ str_of_nat (List.length documents) ++ nl
     ++ nl
     ++ "## 🎯 Quick Access" ++ nl)%string in
  let content :=
    (content ++ String.concat "" (quick_access docs_by_date))%string in
  let content := (content ++ nl ++ "## 📁 By Category" ++ nl ++ nl)%string in
  sections <-
    category_sections docs_by_category
      (sorted (fun k => k) String.ltb (map fst docs_by_category)) ;;
  let content := (content ++ sections)%string in
  updated <- last_update docs_by_date ;;
  largest <- largest_document documents ;;
  let content :=
    (content ++ "## 📊 Statistics" ++ nl ++ nl
     ++ "- **Total Documents**: " ++ str_of_nat (List.length documents) ++ nl
     ++ "- **Categories**: " ++ str_of_nat (List.length docs_by_category) ++ nl
     ++ "- **Last Update**: " ++ updated ++ nl
     ++ "- **Largest Document**: " ++ largest ++ nl
     ++ nl
     ++ "## 🏷️ All Tags" ++ nl)%string in
  let all_tags := collect_tags documents in
  let content :=
    match all_tags with
    | _ :: _ =>
        (content ++ join " " (sorted (fun t => t) String.ltb all_tags) ++ nl)%string
    | [] => content
    end in
  inr (content ++ nl ++ "---" ++ nl
       ++ "*Auto-generated by update-index.py*" ++ nl)%string.

Local Close Scope exc_scope.

(** ** [update_metadata_json] *)

(** The values [json.dump] is given: strings, integers, lists, and dicts
    with their keys in insertion order. *)
#[warnings="-register-all"]
Inductive JSON : Type :=
  | JString (s : string)
  | JNumber (n : nat)
  | JArray (items : list JSON)
  | JObject (members : list (string * JSON)).

(** Reading a member of a decoded object. *)
Fixpoint json_member (key : string) (members : list (string * JSON))
  : option JSON :=
  match members with
  | [] => None
  | (k, v) :: rest => if String.eqb k key then Some v else json_member key rest
  end.

Definition json_get (key : string) (j : JSON) : option JSON :=
  match j with
  | JObject members => json_member key members
  | _ => None
  end.

(** The dict built for one record. *)
Definition snapshot_entry (doc : Document) : JSON :=
  JObject
    [ ("path", JString (path doc));
      ("title", JString (title (meta doc)));
      ("category", JString (category (meta doc)));
      ("tags", JArray (map JString (tags (meta doc))));
      ("modified", JString (Datetime.isoformat (modified doc)));
      ("size", JNumber (size doc)) ].

(** The dict [metadata] handed to [json.dump]. *)
Definition snapshot (now : Datetime.datetime) (documents : list Document)
  : JSON :=
  JObject
    [ ("last_updated", JString (Datetime.isoformat now));
      ("document_count", JNumber (List.length documents));
      ("documents", JArray (map snapshot_entry documents)) ].

(** What a file is given to hold. *)
Inductive FileContent : Type :=
  | Text (s : string)
  | Json (j : JSON).

(** [open(path, 'w')] and the writing that follows, for each path and
    content: the exception raised, if any. *)
Definition Writer : Type := string -> FileContent -> option exception.

(** [update_metadata_json(documents)]: the path of the file, the dict
    [metadata] that [json.dump] is to put into it, the line printed, and the
    exception raised, if any; nothing is printed when the writing raises. *)
Record SnapshotWrite : Type := mk_snapshot_write {
  json_path : string;
  dumped : JSON;
  printed : list string;
  raised : option exception
}.

Definition update_metadata_json (out : Writer) (now : Datetime.datetime)
    (documents : list Document) : SnapshotWrite :=
  let metadata := snapshot now documents in
  let json_path := path_join DOCS_DIR "metadata.json" in
  match out json_path (Json metadata) with
  | Some e => mk_snapshot_write json_path metadata [] (Some e)
  | None =>
      mk_snapshot_write json_path metadata
        [("✅ Metadata saved to " ++ json_path)%string] None
  end.

(** ** [main]

    The run: scan, render, write the index, write the snapshot.  Nothing
    catches an exception, so the run ends where one is raised.  A run
    leaves the lines it printed, the writes it went into, each with the
    path, what was to be written and the exception the writing raised, if
    any, and the exception it ended with, if any.  A write that raised may
    leave its file missing, empty or cut short. *)

Record Run : Type := mk_run {
  run_printed : list string;
  run_writes : list (string * FileContent * option exception);
  run_raised : option exception
}.

Definition main {T : Platform} (fs : FileSystem) (out : Writer)
    (docs_tree : Tree) (now_index now_snapshot : Datetime.datetime) : Run :=
  let scanned := scan_documents fs docs_tree in
  let lines := ("🔍 Scanning markdown documents..."%string :: fst scanned) in
  match snd scanned with
  | inl e => mk_run lines [] (Some e)
  | inr documents =>
      let lines :=
        lines
        ++ [("📄 Found " ++ str_of_nat (List.length documents)
             ++ " documents")%string;
            "📝 Generating index..."%string] in
      match generate_index now_index documents with
      | inl e => mk_run lines [] (Some e)
      | inr index_content =>
          let index_path := path_join DOCS_DIR INDEX_FILE in
          match out index_path (Text index_content) with
          | Some e =>
              mk_run lines [(index_path, Text index_content, Some e)] (Some e)
          | None =>
              let lines :=
                lines
                ++ [("✅ Index updated: " ++ index_path)%string;
                    "💾 Saving metadata..."%string] in
              let saved := update_metadata_json out now_snapshot documents in
              let writes :=
                [(index_path, Text index_content, None);
                 (json_path saved, Json (dumped saved), raised saved)] in
              match raised saved with
              | Some e => mk_run (lines ++ printed saved) writes (Some e)
              | None =>
                  mk_run (lines ++ printed saved
                          ++ ["✨ Update complete!"%string])
                         writes None
              end
          end
      end
  end.

(** ** What the block leaves in each field

    The value each loop of the [try] block computes, as a function of the
    text read; the lemmas below show the loops compute exactly these. *)

(** The header entries one line adds. *)
Definition line_headers (line : string) : list Header :=
  if startswith "#" line then
    match split_ws line with
    | first_word :: _ =>
        if Nat.leb (len first_word) 3
        then [mk_header (len first_word) (strip (lstrip_char "#" line))]
        else []
    | [] => []
    end
  else [].

(** The item of the categories mapping the category loop stops at. *)
Definition first_match (content_lower : string)
  : option (string * list string) :=
  find (fun item => any_pattern_in (snd item) content_lower) CATEGORY_PATTERNS.

(** The number of ['#'] characters a line starts with. *)
Fixpoint leading_markers (line : string) : nat :=
  match line with
  | String c rest => if Ascii.eqb c "#" then S (leading_markers rest) else 0
  | EmptyString => 0
  end.

(** A run of [n] markers. *)
Fixpoint markers (n : nat) : string :=
  match n with
  | O => EmptyString
  | S k => String "#" (markers k)
  end.

(** Membership of a keyword in some keyword list of the categories mapping. *)
Definition is_category_keyword (k : string) : bool :=
  existsb (fun item => existsb (String.eqb k) (snd item)) CATEGORY_PATTERNS.

(** The paths of a snapshot's entries, as a reader of the file finds them. *)
Definition entry_path (entry : JSON) : option string :=
  match json_get "path" entry with
  | Some (JString p) => Some p
  | _ => None
  end.

Definition snapshot_paths (j : JSON) : option (list string) :=
  match json_get "documents" j with
  | Some (JArray entries) =>
      fold_right
        (fun entry acc =>
           match entry_path entry, acc with
           | Some p, Some ps => Some (p :: ps)
           | _, _ => None
           end)
        (Some []) entries
  | _ => None
  end.

Definition snapshot_count (j : JSON) : option nat :=
  match json_get "document_count" j with
  | Some (JNumber n) => Some n
  | _ => None
  end.

(** The record of a file that could be read, field by field; nothing is
    printed. *)
Definition extracted {T : Platform} (file_path content : string) : Metadata :=
  mk_metadata
    (match find (startswith "# ") (firstn 10 (split nl content)) with
     | Some line => strip (slice_from 2 line)
     | None => default_title file_path
     end)
    (match first_match (str_lower content) with
     | Some item => fst item
     | None => "Uncategorized"%string
     end)
    (map (fun tag => ("#" ++ tag)%string)
         (filter (fun tag => contains tag (str_lower content)) tag_patterns))
    (match paragraphs_of content with
     | [] => ""%string
     | p :: _ => truncate_summary p
     end)
    (flat_map line_headers (split nl content)).

(** ** Directory trees

    Induction on a tree with the subdirectories as induction hypotheses. *)
Fixpoint Tree_induction (P : Tree -> Prop)
    (step : forall d files dirs, Forall P dirs -> P (Dir d files dirs))
    (t : Tree) : P t :=
  match t with
  | Dir d files dirs =>
      step d files dirs
        ((fix all (ds : list Tree) : Forall P ds :=
            match ds with
            | [] => Forall_nil P
            | sub :: ds' => Forall_cons sub (Tree_induction P step sub) (all ds')
            end) dirs)
  end.

(** The loop over the subdirectories of one directory, with the walk of a
    subdirectory as a parameter: the inner loop of [scan_walk]. *)
Definition scan_dirs
    (walk : string -> string -> Tree -> Scan (list Document))
    (root rel : string) : list Tree -> Scan (list Document) :=
  fix scan_dirs (ds : list Tree) :=
    match ds with
    | [] => scan_ret []
    | sub :: ds' =>
        let d := dir_name_of sub in
        if startswith "." d then scan_dirs ds'
        else
          scan_bind (walk (path_join root d) (rel_join rel d) sub) (fun first =>
          scan_bind (scan_dirs ds') (fun others =>
          scan_ret (first ++ others)%list))
    end.

(** What holds of every record of a result, when there is a result. *)
Definition every_record (P : Document -> Prop)
    (r : Scan (list Document)) : Prop :=
  match snd r with
  | inr documents => Forall P documents
  | inl _ => True
  end.

(** Every directory below the top one has a name, as in a file system. *)
Fixpoint named (t : Tree) : Prop :=
  match t with
  | Dir _ _ dirs =>
      (fix all (ds : list Tree) : Prop :=
         match ds with
         | [] => True
         | sub :: ds' => dir_name_of sub <> ""%string /\ named sub /\ all ds'
         end) dirs
  end.

(** A tree without its hidden directories, at every depth. *)
Fixpoint prune (t : Tree) : Tree :=
  match t with
  | Dir d files dirs =>
      Dir d files
        ((fix all (ds : list Tree) : list Tree :=
            match ds with
            | [] => []
            | sub :: ds' =>
                if startswith "." (dir_name_of sub) then all ds'
                else prune sub :: all ds'
            end) dirs)
  end.





(** Two modification times that are the same. *)
Definition same_time (a b : Datetime.datetime) : bool :=
  if list_eq_dec Nat.eq_dec (Datetime.fields a) (Datetime.fields b)
  then true else false.

(** [root] for the directory at [rel] below [DOCS_DIR]. *)
Definition root_of (rel : string) : string :=
  if String.eqb rel "" then DOCS_DIR else path_join DOCS_DIR rel.

(** What a scan shows of a record without opening the file. *)
Definition listing (doc : Document)
  : string * string * string * Datetime.datetime * nat :=
  (path doc, full_path doc, name doc, modified doc, size doc).

(** Two scans that end alike: with the same exception, or with the same
    files listed. *)
Definition same_listing (r1 r2 : Scan (list Document)) : Prop :=
  match snd r1, snd r2 with
  | inl e1, inl e2 => e1 = e2
  | inr d1, inr d2 => map listing d1 = map listing d2
  | _, _ => False
  end.

(** One section of By Category: the label, then the records sorted by
    file name. *)
Definition category_section (label : string) (docs : list Document) : string :=
  "### " ++ label ++ nl
  ++ String.concat "" (map category_entry (sorted name String.ltb docs))
  ++ nl.

(** ** Sample texts, for the examples *)

Definition sample_short_text : string :=
  "# Setup" ++ nl ++ nl ++ "  " ++ nl ++ nl ++ " Install the tools. "
  ++ nl ++ nl ++ "Then run.".

Definition sample_long_paragraph : string :=
  String.concat "" (repeat "x"%string 250).

Definition sample_long_text : string :=
  "# Notes" ++ nl ++ nl ++ sample_long_paragraph.

(** U+00A0, the no-break space, and U+3000, the ideographic space. *)
Definition nbsp : string :=
  String (ascii_of_nat 194) (String (ascii_of_nat 160) "").

Definition ideographic_space : string :=
  String (ascii_of_nat 227)
    (String (ascii_of_nat 128) (String (ascii_of_nat 128) "")).

(** A paragraph of 150 characters in 450 bytes. *)
Definition sample_kana_paragraph : string :=
  String.concat "" (repeat "あ"%string 150).

Definition sample_kana_text : string :=
  nbsp ++ nl ++ nl ++ sample_kana_paragraph.

(** The order [sorted] puts strings in: [a] is not after [b]. *)
Definition str_le (a b : string) : Prop := String.ltb b a = false.

(** ** Sample records, for the examples *)

Definition sample_now : Datetime.datetime :=
  Datetime.mk_datetime 2025 1 1 0 0 0 0.

Definition sample_a : Document :=
  mk_document "a.md" "/docs/a.md" "a.md"
    (Datetime.mk_datetime 2024 3 1 9 30 0 0) 120
    (mk_metadata "A" "Uncategorized" [] "" []).

Definition sample_b : Document :=
  mk_document "sub/b.md" "/docs/sub/b.md" "b.md"
    (Datetime.mk_datetime 2024 5 17 18 5 0 0) 64
    (mk_metadata "B" "Security" ["#security"%string] "" []).

(** ** A sample tree, for the examples *)

(** The first instant of 2025 on a clock on UTC, in microseconds. *)
Definition sample_mtime : Z := 1735689600000000.

Definition sample_tree : Tree :=
  Dir "" [("b.md"%string, inr (mk_stat sample_mtime 10));
          ("INDEX.md"%string, inr (mk_stat sample_mtime 10));
          ("notes.txt"%string, inl (OSError "stat failed"))]
      [Dir ".git" [("x.md"%string, inl (OSError "stat failed"))] [];
       Dir "sub" [("a.md"%string, inr (mk_stat sample_mtime 10))] []].

(** A writer that never fails. *)
Definition sample_out : Writer := fun _ _ => None.

Definition sample_fs : FileSystem :=
  fun p =>
    if String.eqb p (DOCS_DIR ++ "/sub/a.md") then inr "# A"%string
    else inl (OSError "denied").

(** ** Tactics *)

(** Unfolds one step of the [Try] computation in the goal. *)
Ltac try_step := unfold bind, ret, lift; cbn [fst snd].

(* ================================================================== *)
(** * Properties of the builtins *)
(* ================================================================== *)

Section Builtins.

Lemma prefix_cons (c : ascii) (p s : string) :
  String.prefix (String c p) s = true <->
  exists s', s = String c s' /\ String.prefix p s' = true.
Proof.
  destruct s as [|b s']; simpl.
  - split; [discriminate | intros (x & H & _); discriminate].
  - destruct (ascii_dec c b) as [->|Hne].
    + split.
      * intros H. exists s'. split; [reflexivity | exact H].
      * intros (x & Heq & H). injection Heq as <-. exact H.
    + split; [discriminate|].
      intros (x & Heq & _). injection Heq as Hc _. congruence.
Qed.

(** [prefix] is what its name says. *)
Lemma prefix_app (p s : string) :
  String.prefix p s = true <-> exists r, s = (p ++ r)%string.
Proof.
  revert s. induction p as [|c p IH]; intros s.
  - destruct s; simpl; split; intros; try reflexivity; eexists; reflexivity.
  - rewrite prefix_cons. split.
    + intros (s' & -> & H). apply IH in H as (r & ->). exists r. reflexivity.
    + intros (r & ->). exists (p ++ r)%string. split; [reflexivity|].
      apply IH. exists r. reflexivity.
Qed.

(** [p in s] holds exactly when [s] is some text, then [p], then some text. *)
Lemma contains_spec (p s : string) :
  contains p s = true <-> exists a b, s = (a ++ p ++ b)%string.
Proof.
  induction s as [|c s IH].
  - cbn [contains]. rewrite orb_false_r. split.
    + intros H. apply prefix_app in H as (r & Hr). exists ""%string, r. exact Hr.
    + intros (a & b & H). destruct a; [|discriminate]. simpl in H.
      apply prefix_app. exists b. exact H.
  - cbn [contains]. rewrite orb_true_iff, IH. split.
    + intros [H | (a & b & ->)].
      * apply prefix_app in H as (r & Hr). exists ""%string, r. exact Hr.
      * exists (String c a), b. reflexivity.
    + intros (a & b & H). destruct a as [|c' a].
      * left. apply prefix_app. exists b. exact H.
      * right. simpl in H. injection H as _ ->. exists a, b. reflexivity.
Qed.

Lemma string_app_assoc (a b c : string) :
  ((a ++ b) ++ c = a ++ (b ++ c))%string.
Proof. induction a; simpl; congruence. Qed.

(** A text that contains [b] contains whatever [b] contains. *)
Lemma contains_trans (a b s : string) :
  contains a b = true -> contains b s = true -> contains a s = true.
Proof.
  rewrite !contains_spec. intros (x & y & ->) (u & v & ->).
  exists (u ++ x)%string, (y ++ v)%string.
  rewrite !string_app_assoc. reflexivity.
Qed.

Lemma slice_to_from (n : nat) (s : string) :
  (slice_to n s ++ slice_from n s)%string = s.
Proof.
  revert s. induction n; intros [|c s]; simpl; try reflexivity.
  rewrite IHn. reflexivity.
Qed.

Lemma slice_to_length (n : nat) (s : string) :
  String.length (slice_to n s) = Nat.min n (String.length s).
Proof.
  revert s. induction n; intros [|c s]; simpl; try reflexivity.
  rewrite IHn. reflexivity.
Qed.

Lemma string_app_nil_r (s : string) : (s ++ "")%string = s.
Proof. induction s; simpl; congruence. Qed.

End Builtins.

(* ================================================================== *)
(** * Whitespace, words and code points *)
(* ================================================================== *)

Section Text.

Lemma ws_len_le_3 (s : string) : ws_len s <= 3.
Proof.
  unfold ws_len. destruct s as [|b0 [|b1 [|b2 s]]];
    repeat match goal with |- context [if ?b then _ else _] => destruct b end;
    lia.
Qed.

Lemma ws_len_le_length (s : string) : ws_len s <= String.length s.
Proof.
  unfold ws_len. destruct s as [|b0 [|b1 [|b2 s]]]; cbn [String.length];
    repeat match goal with |- context [if ?b then _ else _] => destruct b end;
    lia.
Qed.

(** [lstrip] passes one whitespace character at a time. *)
Lemma lstrip_unfold (s : string) :
  lstrip s =
  match ws_len s with
  | 0 => s
  | S k => lstrip (slice_from (S k) s)
  end.
Proof.
  pose proof (ws_len_le_3 s) as H3. pose proof (ws_len_le_length s) as Hl.
  destruct s as [|b0 [|b1 [|b2 s]]]; cbn [lstrip String.length] in *;
    destruct (ws_len _) as [|[|[|[|k]]]]; try reflexivity; lia.
Qed.

Lemma slice_from_length (n : nat) (s : string) :
  String.length (slice_from n s) = String.length s - n.
Proof.
  revert s. induction n; intros [|c s]; cbn [slice_from String.length];
    try lia. rewrite IHn. lia.
Qed.

(** Induction along the whitespace characters a text starts with. *)
Lemma leading_whitespace_ind (P : string -> Prop) :
  (forall s, ws_len s = 0 -> P s) ->
  (forall s k, ws_len s = S k -> P (slice_from (S k) s) -> P s) ->
  forall s, P s.
Proof.
  intros Hstop Hstep s.
  remember (String.length s) as n eqn:Hn. revert s Hn.
  induction n as [n IH] using lt_wf_ind. intros s ->.
  destruct (ws_len s) as [|k] eqn:Hk; [apply Hstop, Hk|].
  apply (Hstep s k Hk). apply (IH (String.length (slice_from (S k) s))).
  - pose proof (ws_len_le_length s). rewrite slice_from_length. lia.
  - reflexivity.
Qed.

Lemma lstrip_stop (s : string) : ws_len s = 0 -> lstrip s = s.
Proof. intros H. rewrite lstrip_unfold, H. reflexivity. Qed.

Lemma lstrip_step (s : string) (k : nat) :
  ws_len s = S k -> lstrip s = lstrip (slice_from (S k) s).
Proof. intros H. rewrite lstrip_unfold, H. reflexivity. Qed.

(** What [lstrip] leaves does not start with whitespace. *)
Lemma ws_len_lstrip (s : string) : ws_len (lstrip s) = 0.
Proof.
  induction s as [s H | s k H IH] using leading_whitespace_ind.
  - rewrite lstrip_stop; assumption.
  - rewrite (lstrip_step _ _ H). exact IH.
Qed.

(** [lstrip] leaves the end of the text. *)
Lemma lstrip_suffix (s : string) : exists w, s = (w ++ lstrip s)%string.
Proof.
  induction s as [s H | s k H [w IH]] using leading_whitespace_ind.
  - exists ""%string. rewrite lstrip_stop; [reflexivity | exact H].
  - exists (slice_to (S k) s ++ w)%string.
    rewrite (lstrip_step _ _ H), string_app_assoc, <- IH, slice_to_from.
    reflexivity.
Qed.

Lemma length_app (a b : string) :
  String.length (a ++ b) = String.length a + String.length b.
Proof. induction a; simpl; congruence. Qed.

Lemma lstrip_length (s : string) : String.length (lstrip s) <= String.length s.
Proof.
  destruct (lstrip_suffix s) as [w Hw]. rewrite Hw at 2.
  rewrite length_app. lia.
Qed.

(** A text [lstrip] leaves as it is does not start with whitespace. *)
Lemma lstrip_fixed (s : string) : lstrip s = s <-> ws_len s = 0.
Proof.
  split; [|apply lstrip_stop].
  intros Hfix. rewrite <- Hfix. apply ws_len_lstrip.
Qed.

Lemma lstrip_idempotent (s : string) : lstrip (lstrip s) = lstrip s.
Proof. apply lstrip_stop, ws_len_lstrip. Qed.

(** The whitespace character a text starts with is seen in its first
    bytes. *)
Lemma ws_len_app (a b : string) :
  ws_len a <> 0 -> ws_len (a ++ b) = ws_len a.
Proof.
  unfold ws_len. destruct a as [|b0 [|b1 [|b2 a]]]; cbn [append];
    repeat match goal with |- context [if ?b then _ else _] => destruct b end;
    congruence.
Qed.

Lemma ws_len_three (a b : string) :
  3 <= String.length a -> ws_len (a ++ b) = ws_len a.
Proof.
  destruct a as [|b0 [|b1 [|b2 a]]]; cbn [String.length]; try lia.
  reflexivity.
Qed.

Lemma slice_from_app (n : nat) (a b : string) :
  n <= String.length a -> slice_from n (a ++ b) = (slice_from n a ++ b)%string.
Proof.
  revert a. induction n as [|n IH]; intros [|c a] Hn;
    cbn [String.length] in Hn; try lia; try reflexivity.
  cbn [append slice_from]. apply IH. lia.
Qed.

(** Whitespace before a text is passed by [lstrip]. *)
Lemma lstrip_app (a b : string) :
  lstrip a = ""%string -> lstrip (a ++ b) = lstrip b.
Proof.
  induction a as [a H | a k H IH] using leading_whitespace_ind.
  - rewrite (lstrip_stop _ H). intros ->. reflexivity.
  - rewrite (lstrip_step _ _ H). intros Hw.
    assert (Hab : ws_len (a ++ b) = S k) by (rewrite ws_len_app; lia).
    rewrite (lstrip_step _ _ Hab), slice_from_app.
    + apply IH, Hw.
    + rewrite <- H. apply ws_len_le_length.
Qed.

(** [rstrip] leaves the start of the text and takes whitespace only. *)
Lemma rstrip_prefix (s : string) :
  exists w, s = (rstrip s ++ w)%string /\ lstrip w = ""%string.
Proof.
  induction s as [|c s (w & IH & Hw)].
  - exists ""%string. split; reflexivity.
  - cbn [rstrip]. destruct (String.eqb (lstrip (String c s)) "") eqn:He.
    + apply String.eqb_eq in He. exists (String c s). split; [reflexivity | exact He].
    + exists w. split; [|exact Hw]. cbn [append]. rewrite <- IH. reflexivity.
Qed.

Lemma rstrip_idempotent (s : string) : rstrip (rstrip s) = rstrip s.
Proof.
  induction s as [|c s IH]; [reflexivity|].
  cbn [rstrip]. destruct (String.eqb (lstrip (String c s)) "") eqn:He;
    [reflexivity|].
  cbn [rstrip]. rewrite IH.
  destruct (String.eqb (lstrip (String c (rstrip s))) "") eqn:He';
    [|reflexivity].
  apply String.eqb_eq in He'. apply String.eqb_neq in He. exfalso. apply He.
  destruct (rstrip_prefix s) as (w & Hs & Hw).
  rewrite Hs at 1. change (String c (rstrip s ++ w))
    with (String c (rstrip s) ++ w)%string.
  rewrite (lstrip_app _ _ He'). exact Hw.
Qed.

(** A text that does not start with whitespace still does not when trimmed
    on the right. *)
Lemma lstrip_rstrip_fixed (s : string) :
  lstrip s = s -> lstrip (rstrip s) = rstrip s.
Proof.
  rewrite !lstrip_fixed. intros H.
  destruct (rstrip_prefix s) as (w & Hs & _).
  destruct (ws_len (rstrip s)) as [|k] eqn:Hk; [reflexivity|].
  rewrite Hs, ws_len_app in H; congruence.
Qed.

Lemma lstrip_strip (s : string) : lstrip (strip s) = strip s.
Proof. unfold strip. apply lstrip_rstrip_fixed, lstrip_idempotent. Qed.

Lemma strip_idempotent (s : string) : strip (strip s) = strip s.
Proof.
  unfold strip at 1. rewrite lstrip_strip. unfold strip.
  apply rstrip_idempotent.
Qed.

Lemma strip_leading_space (s : string) : strip (String " " s) = strip s.
Proof. reflexivity. Qed.

(** A marker is not whitespace and starts none. *)
Lemma ws_len_marker (s : string) : ws_len (String "#" s) = 0.
Proof. destruct s as [|b1 [|b2 s]]; reflexivity. Qed.

(** ** Words *)

Lemma split_ws_go_char (cur : string) (c : ascii) (s : string) :
  ws_len (String c s) = 0 ->
  split_ws_go 0 cur (String c s) = split_ws_go 0 (cur ++ String c "") s.
Proof. intros H. cbn [split_ws_go]. rewrite H. reflexivity. Qed.

Lemma flush_nonempty (cur : string) : cur <> ""%string -> flush cur = [cur].
Proof.
  intros H. unfold flush. apply String.eqb_neq in H. rewrite H. reflexivity.
Qed.

Lemma app_nonempty (cur : string) (c : ascii) :
  (cur ++ String c "")%string <> ""%string.
Proof. destruct cur; discriminate. Qed.

Lemma app_char (cur : string) (c : ascii) (x : string) :
  ((cur ++ String c "") ++ x = cur ++ String c x)%string.
Proof. rewrite string_app_assoc. reflexivity. Qed.

(** The code points of a text, put together. *)
Lemma len_app (a b : string) : len (a ++ b) = len a + len b.
Proof.
  induction a as [|c a IH]; [reflexivity|].
  cbn [append len]. destruct (is_continuation c); lia.
Qed.

Lemma len_le_length (s : string) : len s <= String.length s.
Proof.
  induction s as [|c s IH]; [reflexivity|].
  cbn [len String.length]. destruct (is_continuation c); lia.
Qed.

Lemma len_take_chars (n : nat) (s : string) :
  len (take_chars n s) = Nat.min n (len s).
Proof.
  revert n. induction s as [|c s IH]; intros n.
  - cbn. lia.
  - cbn [take_chars len]. destruct (is_continuation c) eqn:Hc.
    + cbn [len]. rewrite Hc. apply IH.
    + destruct n as [|n]; [reflexivity|].
      cbn [len]. rewrite Hc, IH. reflexivity.
Qed.

Lemma take_drop_chars (n : nat) (s : string) :
  (take_chars n s ++ drop_chars n s)%string = s.
Proof.
  revert n. induction s as [|c s IH]; intros n; [reflexivity|].
  cbn [take_chars drop_chars]. destruct (is_continuation c).
  - cbn [append]. rewrite IH. reflexivity.
  - destruct n as [|n]; [reflexivity|]. cbn [append]. rewrite IH. reflexivity.
Qed.

(** With a word begun, the first word is that word and what follows up to
    the first whitespace; it covers the markers that follow. *)
Lemma split_ws_go_first (cur s : string) :
  cur <> ""%string ->
  exists x ws,
    split_ws_go 0 cur s = (cur ++ x)%string :: ws /\
    leading_markers s <= len x.
Proof.
  revert cur. induction s as [|c s IH]; intros cur Hcur.
  - exists ""%string, []. cbn [split_ws_go]. rewrite (flush_nonempty _ Hcur).
    rewrite string_app_nil_r. split; [reflexivity | cbn; lia].
  - destruct (ws_len (String c s)) as [|k] eqn:Hk.
    + rewrite (split_ws_go_char _ _ _ Hk).
      destruct (IH _ (app_nonempty cur c)) as (x & ws & Hsplit & Hlead).
      exists (String c x), ws. rewrite Hsplit, app_char.
      split; [reflexivity|].
      cbn [leading_markers len].
      destruct (Ascii.eqb c "#") eqn:Hc; [|lia].
      apply Ascii.eqb_eq in Hc. subst c.
      change (is_continuation "#") with false. cbv iota. lia.
    + exists ""%string. eexists. cbn [split_ws_go]. rewrite Hk.
      rewrite (flush_nonempty _ Hcur), string_app_nil_r.
      split; [reflexivity|].
      cbn [leading_markers]. destruct (Ascii.eqb c "#") eqn:Hc; [|cbn; lia].
      apply Ascii.eqb_eq in Hc. subst c. rewrite ws_len_marker in Hk.
      discriminate.
Qed.

End Text.

(* ================================================================== *)
(** * The loops of the [try] block, one field each *)
(* ================================================================== *)

Section Loops.

Context {T : Platform}.

Lemma title_loop_spec (lines : list string) (m : Metadata) :
  title_loop lines m =
  (mk_metadata
     (match find (startswith "# ") lines with
      | Some line => strip (slice_from 2 line)
      | None => title m
      end)
     (category m) (tags m) (summary m) (headers m),
   inr tt).
Proof.
  induction lines as [|line rest IH]; cbn [title_loop find].
  - destruct m; reflexivity.
  - destruct (startswith "# " line); [reflexivity | exact IH].
Qed.

(** The first word of a line that starts with a marker. *)
Lemma split_ws_marker (rest : string) :
  exists x ws,
    split_ws (String "#" rest) = String "#" x :: ws /\
    leading_markers rest <= len x.
Proof.
  unfold split_ws. rewrite (split_ws_go_char _ _ _ (ws_len_marker rest)).
  apply (split_ws_go_first "#" rest). discriminate.
Qed.

(** A line that starts with a marker has a first word, so [line.split()[0]]
    does not raise. *)
Lemma split_ws_nonempty (rest : string) : split_ws (String "#" rest) <> [].
Proof.
  destruct (split_ws_marker rest) as (x & ws & -> & _). discriminate.
Qed.

Lemma startswith_marker (line : string) :
  startswith "#" line = true -> exists rest, line = String "#" rest.
Proof.
  unfold startswith. intros H. apply prefix_cons in H as (rest & -> & _).
  exists rest. reflexivity.
Qed.

Lemma header_step_spec (line : string) (m : Metadata) :
  header_step line m =
  (mk_metadata (title m) (category m) (tags m) (summary m)
     (headers m ++ line_headers line),
   inr tt).
Proof.
  unfold header_step, line_headers.
  destruct (startswith "#" line) eqn:Hs.
  - apply startswith_marker in Hs as (rest & ->).
    pose proof (split_ws_nonempty rest) as Hne.
    try_step.
    destruct (split_ws (String "#" rest)) as [|w ws]; [congruence|].
    cbn [index0]. destruct (Nat.leb (len w) 3).
    + reflexivity.
    + unfold ret. rewrite app_nil_r. destruct m; reflexivity.
  - unfold ret. rewrite app_nil_r. destruct m; reflexivity.
Qed.

Lemma headers_loop_spec (lines : list string) (m : Metadata) :
  headers_loop lines m =
  (mk_metadata (title m) (category m) (tags m) (summary m)
     (headers m ++ flat_map line_headers lines),
   inr tt).
Proof.
  revert m. induction lines as [|line rest IH]; intros m.
  - cbn. rewrite app_nil_r. destruct m; reflexivity.
  - cbn [headers_loop flat_map]. unfold bind.
    rewrite header_step_spec, IH. cbn. rewrite app_assoc. reflexivity.
Qed.

Lemma category_loop_spec (items : list (string * list string))
    (content_lower : string) (m : Metadata) :
  category_loop items content_lower m =
  (mk_metadata (title m)
     (match find (fun item => any_pattern_in (snd item) content_lower) items with
      | Some item => fst item
      | None => category m
      end)
     (tags m) (summary m) (headers m),
   inr tt).
Proof.
  induction items as [|[label patterns] rest IH]; cbn [category_loop find snd].
  - destruct m; reflexivity.
  - destruct (any_pattern_in patterns content_lower); [reflexivity | exact IH].
Qed.

Lemma tags_loop_spec (patterns : list string) (content_lower : string)
    (m : Metadata) :
  tags_loop patterns content_lower m =
  (mk_metadata (title m) (category m)
     (tags m ++ map (fun tag => ("#" ++ tag)%string)
                    (filter (fun tag => contains tag content_lower) patterns))
     (summary m) (headers m),
   inr tt).
Proof.
  revert m. induction patterns as [|tag rest IH]; intros m.
  - cbn. rewrite app_nil_r. destruct m; reflexivity.
  - cbn [tags_loop filter]. unfold bind.
    destruct (contains tag content_lower).
    + unfold append_tag. rewrite IH. cbn. rewrite <- app_assoc. reflexivity.
    + unfold ret. rewrite IH. reflexivity.
Qed.

Lemma summary_step_spec (content : string) (m : Metadata) :
  summary_step content m =
  (mk_metadata (title m) (category m) (tags m)
     (match paragraphs_of content with
      | [] => summary m
      | p :: _ => truncate_summary p
      end)
     (headers m),
   inr tt).
Proof.
  unfold summary_step. destruct (paragraphs_of content).
  - destruct m; reflexivity.
  - reflexivity.
Qed.

Lemma try_body_readable (fs : FileSystem) (file_path content : string) :
  fs file_path = inr content ->
  try_body fs file_path (default_metadata file_path) =
  (extracted file_path content, inr tt).
Proof.
  intros Hread. unfold try_body, bind, lift. rewrite Hread.
  rewrite title_loop_spec, headers_loop_spec, category_loop_spec,
    tags_loop_spec, summary_step_spec.
  reflexivity.
Qed.

Lemma extract_metadata_readable (fs : FileSystem) (file_path content : string) :
  fs file_path = inr content ->
  extract_metadata fs file_path = (extracted file_path content, []).
Proof.
  intros Hread. unfold extract_metadata.
  rewrite (try_body_readable _ _ _ Hread). reflexivity.
Qed.

Lemma extract_metadata_unreadable (fs : FileSystem) (file_path : string)
    (e : exception) :
  fs file_path = inl e ->
  extract_metadata fs file_path =
  (default_metadata file_path,
   [("Error processing " ++ file_path ++ ": " ++ str_of_exception e)%string]).
Proof.
  intros Hread. unfold extract_metadata, try_body, bind, lift.
  rewrite Hread. reflexivity.
Qed.

End Loops.

(* ================================================================== *)
(** * Category and tags *)
(* ================================================================== *)

Section Category.

(** [find] stops at the first position whose element passes the test. *)
Lemma find_first_index {A : Type} (f : A -> bool) (l : list A) (i : nat) (x : A) :
  nth_error l i = Some x ->
  f x = true ->
  (forall j y, j < i -> nth_error l j = Some y -> f y = false) ->
  find f l = Some x.
Proof.
  revert i. induction l as [|a l IH]; intros i Hnth Hfx Hbefore.
  - destruct i; discriminate.
  - destruct i as [|i]; cbn [find].
    + injection Hnth as ->. rewrite Hfx. reflexivity.
    + rewrite (Hbefore 0 a (Nat.lt_0_succ i) eq_refl).
      apply (IH i Hnth Hfx). intros j y Hj Hy.
      apply (Hbefore (S j) y); [lia | exact Hy].
Qed.

Lemma any_pattern_in_true (patterns : list string) (content_lower : string) :
  any_pattern_in patterns content_lower = true <->
  exists pattern, In pattern patterns /\ contains pattern content_lower = true.
Proof. unfold any_pattern_in. apply existsb_exists. Qed.

Lemma any_pattern_in_false (patterns : list string) (content_lower : string) :
  any_pattern_in patterns content_lower = false <->
  forall pattern, In pattern patterns -> contains pattern content_lower = false.
Proof.
  unfold any_pattern_in. rewrite <- not_true_iff_false, existsb_exists. split.
  - intros H pattern Hin. apply not_true_iff_false. intros Hc.
    apply H. exists pattern. split; assumption.
  - intros H (pattern & Hin & Hc). rewrite (H pattern Hin) in Hc. discriminate.
Qed.

(** The labels of the mapping differ from the default label. *)
Lemma labels_not_default (item : string * list string) :
  In item CATEGORY_PATTERNS -> fst item <> "Uncategorized"%string.
Proof.
  intros Hin. cbn in Hin.
  repeat (destruct Hin as [<- | Hin]; [discriminate|]). destruct Hin.
Qed.

(** Each tag keyword has a keyword of some category inside it. *)
Lemma tag_has_category_keyword (tag : string) :
  In tag tag_patterns ->
  exists item keyword,
    In item CATEGORY_PATTERNS /\ In keyword (snd item) /\
    contains keyword tag = true.
Proof.
  intros Hin.
  assert (Hall : forallb
            (fun t => existsb
               (fun item => existsb (fun k => contains k t) (snd item))
               CATEGORY_PATTERNS) tag_patterns = true) by reflexivity.
  rewrite forallb_forall in Hall. specialize (Hall tag Hin).
  apply existsb_exists in Hall as (item & Hitem & Hk).
  apply existsb_exists in Hk as (keyword & Hkin & Hc).
  exists item, keyword. repeat split; assumption.
Qed.

End Category.

(** C1.  For a file that could be read, the category of the record is the
    label of the first item, in the declared order of the categories
    mapping, one of whose keywords occurs in the lower-cased content, the
    content as [str.lower] of the platform gives it: when keywords of two or
    more categories occur, the earliest of these categories is assigned.
    The declared order is Authentication System, Admin & Management,
    Development & UI, API Documentation, Security, Configuration,
    Notes & Memos.  When no keyword of any category occurs, the category is
    Uncategorized. *)
Theorem category_is_first_match {T : Platform} (fs : FileSystem)
    (file_path content : string) :
  fs file_path = inr content ->
  map fst CATEGORY_PATTERNS =
    ["Authentication System"; "Admin & Management"; "Development & UI";
     "API Documentation"; "Security"; "Configuration";
     "Notes & Memos"]%string /\
  (forall i label patterns,
     nth_error CATEGORY_PATTERNS i = Some (label, patterns) ->
     (exists pattern,
        In pattern patterns /\ contains pattern (str_lower content) = true) ->
     (forall j earlier_label earlier_patterns pattern,
        j < i ->
        nth_error CATEGORY_PATTERNS j = Some (earlier_label, earlier_patterns) ->
        In pattern earlier_patterns ->
        contains pattern (str_lower content) = false) ->
     category (fst (extract_metadata fs file_path)) = label) /\
  ((forall label patterns pattern,
      In (label, patterns) CATEGORY_PATTERNS ->
      In pattern patterns ->
      contains pattern (str_lower content) = false) ->
   category (fst (extract_metadata fs file_path)) = "Uncategorized"%string).
Proof.
  intros Hread. rewrite (extract_metadata_readable _ _ _ Hread).
  cbn [fst category extracted]. split; [reflexivity | split].
  - intros i label patterns Hnth Hmatch Hearlier.
    unfold first_match.
    rewrite (find_first_index _ _ i (label, patterns) Hnth).
    + reflexivity.
    + apply any_pattern_in_true. exact Hmatch.
    + intros j [l' p'] Hj Hy. apply any_pattern_in_false.
      intros pattern Hin. exact (Hearlier j l' p' pattern Hj Hy Hin).
  - intros Hnone. unfold first_match.
    destruct (find _ CATEGORY_PATTERNS) as [[label patterns]|] eqn:Hfind;
      [|reflexivity].
    apply find_some in Hfind as [Hin Hany]. cbn [snd] in Hany.
    apply any_pattern_in_true in Hany as (pattern & Hp & Hc).
    rewrite (Hnone label patterns pattern Hin Hp) in Hc. discriminate.
Qed.

(** A text with a keyword of Admin & Management and one of API
    Documentation, and none of Authentication System. *)
Lemma category_is_first_match_witness :
  category
    (fst (extract_metadata (T := ascii_utc)
            (fun _ => inr "The Dashboard calls the api.")
            "notes/overview.md"))
  = "Admin & Management"%string.
Proof.
  refine (proj1 (proj2 (category_is_first_match (T := ascii_utc)
            (fun _ => inr "The Dashboard calls the api."%string)
            "notes/overview.md" "The Dashboard calls the api." eq_refl))
          1 "Admin & Management"%string
          ["admin"; "dashboard"; "management"]%string eq_refl _ _).
  - exists "dashboard"%string. split; [cbn; tauto | reflexivity].
  - intros j l p pattern Hj Hnth Hin.
    assert (j = 0) by lia. subst j. injection Hnth as <- <-.
    cbn in Hin.
    repeat (destruct Hin as [<- | Hin]; [reflexivity|]). destruct Hin.
Defined.

(** C9.  For a file that could be read, a record with at least one tag has
    a category other than Uncategorized. *)
Theorem tagged_record_is_categorized {T : Platform} (fs : FileSystem)
    (file_path content : string) :
  fs file_path = inr content ->
  tags (fst (extract_metadata fs file_path)) <> [] ->
  category (fst (extract_metadata fs file_path)) <> "Uncategorized"%string.
Proof.
  intros Hread. rewrite (extract_metadata_readable _ _ _ Hread).
  cbn [fst tags category extracted]. intros Htags.
  destruct (filter _ tag_patterns) as [|tag others] eqn:Hfilter;
    [contradiction Htags; reflexivity|].
  assert (Hin : In tag (filter (fun t => contains t (str_lower content))
                               tag_patterns))
    by (rewrite Hfilter; left; reflexivity).
  apply filter_In in Hin as [Htag Hc].
  destruct (tag_has_category_keyword tag Htag) as (item & keyword & Hi & Hk & Hkt).
  pose proof (contains_trans _ _ _ Hkt Hc) as Hkc.
  unfold first_match.
  destruct (find _ CATEGORY_PATTERNS) as [found|] eqn:Hfind.
  - apply find_some in Hfind as [Hfound _]. apply labels_not_default, Hfound.
  - pose proof (find_none _ _ Hfind item Hi) as Hnone. cbn beta in Hnone.
    rewrite any_pattern_in_false in Hnone.
    rewrite (Hnone keyword Hk) in Hkc. discriminate.
Qed.

Lemma tagged_record_is_categorized_witness :
  category
    (fst (extract_metadata (T := ascii_utc)
            (fun _ => inr "Notes on Authentication.")
            "auth-notes.md"))
  <> "Uncategorized"%string.
Proof.
  apply (tagged_record_is_categorized (T := ascii_utc)
           (fun _ => inr "Notes on Authentication."%string)
           "auth-notes.md" "Notes on Authentication." eq_refl).
  vm_compute. discriminate.
Defined.

(** C4.  Of the seven tag keywords, all but [authentication] and
    [configuration] are keywords of some category; these two belong to no
    category's keyword list, and each has a category keyword inside it, as
    every tag keyword has.  The tag keywords are not all the category
    keywords: [login] is not among them. *)
Theorem tag_keywords_against_category_keywords :
  (forall tag,
     In tag tag_patterns ->
     tag <> "authentication"%string -> tag <> "configuration"%string ->
     exists label patterns,
       In (label, patterns) CATEGORY_PATTERNS /\ In tag patterns) /\
  (forall label patterns,
     In (label, patterns) CATEGORY_PATTERNS ->
     ~ In "authentication"%string patterns /\
     ~ In "configuration"%string patterns) /\
  (forall tag,
     In tag tag_patterns ->
     exists label patterns keyword,
       In (label, patterns) CATEGORY_PATTERNS /\ In keyword patterns /\
       contains keyword tag = true) /\
  (exists label patterns,
     In (label, patterns) CATEGORY_PATTERNS /\ In "login"%string patterns /\
     ~ In "login"%string tag_patterns).
Proof.
  repeat split.
  - intros tag Hin Ha Hc. cbn in Hin.
    destruct Hin as [<- | Hin]; [contradiction Ha; reflexivity|].
    destruct Hin as [<- | Hin];
      [exists "Development & UI"%string; eexists; split;
         [cbn; tauto | cbn; tauto]|].
    destruct Hin as [<- | Hin];
      [exists "API Documentation"%string; eexists; split;
         [cbn; tauto | cbn; tauto]|].
    destruct Hin as [<- | Hin];
      [exists "Security"%string; eexists; split;
         [cbn; tauto | cbn; tauto]|].
    destruct Hin as [<- | Hin];
      [exists "Admin & Management"%string; eexists; split;
         [cbn; tauto | cbn; tauto]|].
    destruct Hin as [<- | Hin];
      [exists "Development & UI"%string; eexists; split;
         [cbn; tauto | cbn; tauto]|].
    destruct Hin as [<- | Hin]; [contradiction Hc; reflexivity | destruct Hin].
  - cbn in H.
    repeat (destruct H as [H | H];
            [injection H as <- <-; cbn; intuition discriminate|]).
    destruct H.
  - cbn in H.
    repeat (destruct H as [H | H];
            [injection H as <- <-; cbn; intuition discriminate|]).
    destruct H.
  - intros tag Hin.
    destruct (tag_has_category_keyword tag Hin)
      as ([label patterns] & keyword & Hi & Hk & Hc).
    exists label, patterns, keyword. repeat split; assumption.
  - exists "Authentication System"%string,
      ["auth"; "login"; "signin"; "signup"; "session"]%string.
    split; [cbn; tauto | split; [cbn; tauto|]].
    cbn. intuition discriminate.
Qed.

Lemma tag_keywords_against_category_keywords_witness :
  exists label patterns,
    In (label, patterns) CATEGORY_PATTERNS /\ In "ui"%string patterns.
Proof.
  apply (proj1 tag_keywords_against_category_keywords "ui"%string).
  - cbn. tauto.
  - discriminate.
  - discriminate.
Defined.

(** C4, as stated: it is not the case that every tag keyword is a keyword of
    some category while some category keyword is no tag keyword;
    [authentication] is a tag keyword and no category lists it. *)
Lemma tag_keywords_not_subset_of_category_keywords :
  ~ ((forall tag,
        In tag tag_patterns ->
        exists label patterns,
          In (label, patterns) CATEGORY_PATTERNS /\ In tag patterns) /\
     (exists label patterns keyword,
        In (label, patterns) CATEGORY_PATTERNS /\ In keyword patterns /\
        ~ In keyword tag_patterns)).
Proof.
  intros [Hsubset _].
  destruct (Hsubset "authentication"%string) as (label & patterns & Hin & Htag).
  - cbn. tauto.
  - cbn in Hin.
    repeat (destruct Hin as [Hin | Hin];
            [injection Hin as <- <-; cbn in Htag; intuition discriminate|]).
    destruct Hin.
Qed.

(** C6.  When reading a file raises, [extract_metadata] returns the record
    it started with -- the title made from the file name's stem, with
    underscores and hyphens turned into spaces and then put in title case
    by [str.title] of the platform, the category Uncategorized, no tag, an
    empty summary, no header -- and prints one line that names the file and
    the exception.  The scan goes on with the files that follow: for a file
    it takes, whose time stamp [datetime.fromtimestamp] could show, the
    line is printed, the scan of the files that follow is run, and the
    record with these defaults comes first in what it yields. *)
Theorem unreadable_file_keeps_defaults {T : Platform} (fs : FileSystem)
    (file_path : string) (e : exception) :
  fs file_path = inl e ->
  extract_metadata fs file_path =
    (mk_metadata
       (str_title (replace "-" " " (replace "_" " " (path_stem file_path))))
       "Uncategorized" [] "" [],
     [("Error processing " ++ file_path ++ ": " ++ str_of_exception e)%string])
  /\
  (forall root rel file stats modified rest,
     file_path = path_join root file ->
     eligible file = true ->
     fromtimestamp (st_mtime stats) = inr modified ->
     scan_files fs root rel ((file, inr stats) :: rest) =
     (("Error processing " ++ file_path ++ ": " ++ str_of_exception e)%string
      :: fst (scan_files fs root rel rest),
      match snd (scan_files fs root rel rest) with
      | inl raised => inl raised
      | inr more =>
          inr (mk_document (rel_join rel file) file_path file
                 modified (st_size stats)
                 (mk_metadata
                    (str_title (replace "-" " "
                                 (replace "_" " " (path_stem file_path))))
                    "Uncategorized" [] "" [])
               :: more)
      end)).
Proof.
  intros Hread.
  pose proof (extract_metadata_unreadable fs file_path e Hread) as Hx.
  split; [exact Hx|].
  intros root rel file stats modified rest -> Helig Htime.
  cbn [scan_files]. rewrite Helig. unfold quiet. cbn [scan_bind].
  rewrite Htime. cbn [scan_bind]. rewrite Hx. cbn [scan_bind fst snd app].
  destruct (scan_files fs root rel rest) as [lines [raised | more]];
    cbn [scan_bind scan_ret fst snd app]; rewrite ?app_nil_r; reflexivity.
Qed.

(** A file that could not be opened, on its own and at the head of a
    directory's files. *)
Lemma unreadable_file_keeps_defaults_witness :
  extract_metadata (T := ascii_utc)
    (fun _ => inl (OSError "[Errno 13] Permission denied"))
    "docs/api_rate-limits.md"
  = (mk_metadata "Api Rate Limits" "Uncategorized" [] "" [],
     ["Error processing docs/api_rate-limits.md: [Errno 13] Permission denied"%string])
  /\
  scan_files (T := ascii_utc)
    (fun _ => inl (OSError "[Errno 13] Permission denied"))
    "docs" "" [("api_rate-limits.md"%string, inr (mk_stat sample_mtime 10))]
  = (["Error processing docs/api_rate-limits.md: [Errno 13] Permission denied"%string],
     inr [mk_document "api_rate-limits.md" "docs/api_rate-limits.md"
            "api_rate-limits.md" sample_now 10
            (mk_metadata "Api Rate Limits" "Uncategorized" [] "" [])]).
Proof.
  pose proof (unreadable_file_keeps_defaults (T := ascii_utc)
                (fun _ => inl (OSError "[Errno 13] Permission denied"))
                "docs/api_rate-limits.md"
                (OSError "[Errno 13] Permission denied") eq_refl) as [Hx Hscan].
  split; [exact Hx|].
  exact (Hscan "docs"%string ""%string "api_rate-limits.md"%string
           (mk_stat sample_mtime 10) sample_now [] eq_refl eq_refl eq_refl).
Defined.

(* ================================================================== *)
(** * Summary *)
(* ================================================================== *)

Section Summary.

Lemma qualifies_true (p : string) :
  qualifies p = true <->
  strip p <> ""%string /\ startswith "#" (strip p) = false.
Proof.
  unfold qualifies.
  rewrite andb_true_iff, !negb_true_iff, String.eqb_neq. reflexivity.
Qed.

Lemma qualifies_false (p : string) :
  qualifies p = false <->
  strip p = ""%string \/ startswith "#" (strip p) = true.
Proof.
  unfold qualifies.
  rewrite andb_false_iff, !negb_false_iff, String.eqb_eq. reflexivity.
Qed.

Lemma filter_none {A : Type} (f : A -> bool) (l : list A) :
  (forall x, In x l -> f x = false) -> filter f l = [].
Proof.
  induction l as [|a l IH]; intros H; cbn [filter]; [reflexivity|].
  rewrite (H a (or_introl eq_refl)). apply IH.
  intros x Hx. apply H. right. exact Hx.
Qed.

(** The first piece that qualifies is the head of [paragraphs]. *)
Lemma paragraphs_of_first (content : string) (before : list string)
    (p : string) (after : list string) :
  split (nl ++ nl) content = before ++ p :: after ->
  (forall q, In q before -> qualifies q = false) ->
  qualifies p = true ->
  exists others, paragraphs_of content = strip p :: others.
Proof.
  intros Hsplit Hbefore Hp. unfold paragraphs_of.
  rewrite Hsplit, filter_app, (filter_none _ _ Hbefore).
  cbn [filter app]. rewrite Hp. cbn [map].
  eexists. reflexivity.
Qed.

End Summary.

(** C2.  For a file that could be read, let the pieces be the content split
    at each pair of consecutive line feeds.  If [p] is the first piece that,
    once trimmed of the whitespace of Unicode, is neither empty nor starts
    with ['#'], then the summary is the trimmed [p] when it has at most 200
    characters, and its first 200 characters followed by three dots when it
    has more; characters are code points, whatever bytes encode them.  If no
    piece qualifies, the summary is empty. *)
Theorem summary_is_first_paragraph {T : Platform} (fs : FileSystem)
    (file_path content : string) :
  fs file_path = inr content ->
  (forall before p after,
     split (nl ++ nl) content = before ++ p :: after ->
     (forall q, In q before ->
        strip q = ""%string \/ startswith "#" (strip q) = true) ->
     strip p <> ""%string ->
     startswith "#" (strip p) = false ->
     (200 < len (strip p) ->
      summary (fst (extract_metadata fs file_path))
        = (take_chars 200 (strip p) ++ "...")%string /\
      len (take_chars 200 (strip p)) = 200 /\
      (take_chars 200 (strip p) ++ drop_chars 200 (strip p))%string = strip p)
     /\
     (len (strip p) <= 200 ->
      summary (fst (extract_metadata fs file_path)) = strip p))
  /\
  ((forall q, In q (split (nl ++ nl) content) ->
      strip q = ""%string \/ startswith "#" (strip q) = true) ->
   summary (fst (extract_metadata fs file_path)) = ""%string).
Proof.
  intros Hread. rewrite (extract_metadata_readable _ _ _ Hread).
  cbn [fst summary extracted]. split.
  - intros before p after Hsplit Hbefore Hne Hhash.
    destruct (paragraphs_of_first content before p after Hsplit) as [others ->].
    + intros q Hq. apply qualifies_false, Hbefore, Hq.
    + apply qualifies_true. split; assumption.
    + unfold truncate_summary. split.
      * intros Hlong. apply Nat.ltb_lt in Hlong. rewrite Hlong.
        apply Nat.ltb_lt in Hlong.
        repeat split.
        -- rewrite len_take_chars. lia.
        -- apply take_drop_chars.
      * intros Hshort.
        destruct (Nat.ltb 200 (len (strip p))) eqn:Hlt;
          [apply Nat.ltb_lt in Hlt; lia | reflexivity].
  - intros Hnone. unfold paragraphs_of. rewrite filter_none; [reflexivity|].
    intros q Hq. apply qualifies_false, Hnone, Hq.
Qed.

(** A heading, a blank piece, then a short paragraph; a heading followed by
    a paragraph of 250 characters; and a piece that is one no-break space
    followed by a paragraph of 150 characters of three bytes each. *)
Lemma summary_is_first_paragraph_witness :
  summary (fst (extract_metadata (T := ascii_utc)
                  (fun _ => inr sample_short_text) "setup.md"))
  = "Install the tools."%string
  /\
  summary (fst (extract_metadata (T := ascii_utc)
                  (fun _ => inr sample_long_text) "long.md"))
  = (take_chars 200 sample_long_paragraph ++ "...")%string
  /\
  summary (fst (extract_metadata (T := ascii_utc)
                  (fun _ => inr sample_kana_text) "kana.md"))
  = sample_kana_paragraph.
Proof.
  split; [|split].
  - refine (proj2 (proj1 (summary_is_first_paragraph (T := ascii_utc)
              (fun _ => inr sample_short_text) "setup.md" _ eq_refl)
            ["# Setup"; "  "]%string " Install the tools. "%string
            ["Then run."]%string eq_refl _ _ eq_refl) _).
    + intros q [<- | [<- | []]]; [right | left]; reflexivity.
    + discriminate.
    + vm_compute. lia.
  - refine (proj1 (proj1 (proj1 (summary_is_first_paragraph (T := ascii_utc)
              (fun _ => inr sample_long_text) "long.md" _ eq_refl)
            ["# Notes"]%string sample_long_paragraph [] eq_refl _ _ eq_refl) _)).
    + intros q [<- | []]. right. reflexivity.
    + discriminate.
    + vm_compute. lia.
  - refine (proj2 (proj1 (summary_is_first_paragraph (T := ascii_utc)
              (fun _ => inr sample_kana_text) "kana.md" _ eq_refl)
            [nbsp] sample_kana_paragraph [] eq_refl _ _ eq_refl) _).
    + intros q [<- | []]. left. reflexivity.
    + discriminate.
    + vm_compute. lia.
Defined.

(* ================================================================== *)
(** * Headers *)
(* ================================================================== *)

Section Headers.

(** The first word of a line is at least as long as its run of markers. *)
Lemma first_word_covers_markers (line w : string) (ws : list string) :
  split_ws line = w :: ws -> leading_markers line <= len w.
Proof.
  destruct line as [|c rest]; [cbn; lia|].
  cbn [leading_markers]. destruct (Ascii.eqb c "#") eqn:Hc; [|lia].
  apply Ascii.eqb_eq in Hc. subst c.
  destruct (split_ws_marker rest) as (x & ws' & -> & Hlead).
  intros Hsplit. injection Hsplit as <- _.
  cbn [len]. change (is_continuation "#") with false. cbv iota. lia.
Qed.

(** A line with more than three markers adds no header. *)
Lemma beyond_level_three_not_recorded (line : string) :
  3 < leading_markers line -> line_headers line = [].
Proof.
  intros Hdeep. unfold line_headers.
  destruct (startswith "#" line); [|reflexivity].
  destruct (split_ws line) as [|w ws] eqn:Hsplit; [reflexivity|].
  pose proof (first_word_covers_markers line w ws Hsplit) as Hlen.
  destruct (Nat.leb (len w) 3) eqn:Hle; [|reflexivity].
  apply Nat.leb_le in Hle. lia.
Qed.

(** A run of markers goes into the word being built. *)
Lemma split_ws_go_markers (n : nat) (cur rest : string) :
  split_ws_go 0 cur (markers n ++ rest) =
  split_ws_go 0 (cur ++ markers n) rest.
Proof.
  revert cur. induction n as [|n IH]; intros cur.
  - cbn [markers append]. rewrite string_app_nil_r. reflexivity.
  - cbn [markers append].
    rewrite (split_ws_go_char _ _ _ (ws_len_marker _)), IH, app_char.
    reflexivity.
Qed.

(** A word ends where the text ends or whitespace starts. *)
Lemma split_ws_go_end (cur rest : string) :
  cur <> ""%string ->
  rest = ""%string \/ ws_len rest <> 0 ->
  split_ws_go 0 cur rest = cur :: split_ws rest.
Proof.
  intros Hcur [-> | Hws].
  - cbn [split_ws split_ws_go]. rewrite (flush_nonempty _ Hcur). reflexivity.
  - destruct rest as [|c r]; [contradiction Hws; reflexivity|].
    unfold split_ws. cbn [split_ws_go].
    destruct (ws_len (String c r)) as [|k]; [contradiction Hws; reflexivity|].
    rewrite (flush_nonempty _ Hcur). reflexivity.
Qed.

(** A line made of [n] markers and a remainder that is empty or starts with
    whitespace. *)
Lemma split_ws_markers (n : nat) (rest : string) :
  rest = ""%string \/ ws_len rest <> 0 ->
  split_ws (String "#" (markers n ++ rest)) =
  String "#" (markers n) :: split_ws rest.
Proof.
  intros Hrest. unfold split_ws at 1.
  rewrite (split_ws_go_char _ _ _ (ws_len_marker _)), split_ws_go_markers.
  apply split_ws_go_end; [discriminate | exact Hrest].
Qed.

Lemma markers_length (n : nat) : String.length (markers n) = n.
Proof. induction n; cbn; congruence. Qed.

(** Each marker is one character of one byte. *)
Lemma markers_len (n : nat) : len (markers n) = n.
Proof.
  induction n as [|n IH]; [reflexivity|].
  cbn [markers len]. change (is_continuation "#") with false. cbv iota.
  rewrite IH. reflexivity.
Qed.

Lemma lstrip_markers (n : nat) (rest : string) :
  rest = ""%string \/ ws_len rest <> 0 ->
  lstrip_char "#" (markers n ++ rest) = rest /\
  leading_markers (markers n ++ rest) = n.
Proof.
  intros Hrest. induction n as [|n [IH1 IH2]].
  - cbn [markers append].
    destruct Hrest as [-> | Hws]; [split; reflexivity|].
    destruct rest as [|c r]; [split; reflexivity|].
    cbn [lstrip_char leading_markers].
    destruct (Ascii.eqb c "#") eqn:Hm; [|split; reflexivity].
    apply Ascii.eqb_eq in Hm. subst c.
    contradiction Hws. apply ws_len_marker.
  - cbn [markers append lstrip_char leading_markers].
    rewrite Ascii.eqb_refl, IH1, IH2. split; reflexivity.
Qed.

(** One to three markers followed by whitespace, or alone on the line, are
    recorded with the number of markers as level. *)
Lemma spaced_heading_recorded (n : nat) (rest : string) :
  1 <= n -> n <= 3 ->
  rest = ""%string \/ ws_len rest <> 0 ->
  leading_markers (markers n ++ rest) = n /\
  line_headers (markers n ++ rest) = [mk_header n (strip rest)].
Proof.
  intros Hpos Hmax Hrest.
  destruct (lstrip_markers n rest Hrest) as [Hstrip Hlead].
  split; [exact Hlead|].
  unfold line_headers. rewrite Hstrip.
  destruct n as [|n]; [lia|].
  cbn [markers append]. rewrite (split_ws_markers n rest Hrest).
  assert (Hstart : startswith "#" (String "#" (markers n ++ rest)) = true).
  { apply prefix_cons. eexists. split; [reflexivity|].
    destruct (markers n ++ rest)%string; reflexivity. }
  rewrite Hstart. cbn [len]. change (is_continuation "#") with false.
  cbv iota. rewrite markers_len.
  destruct (Nat.leb (S n) 3) eqn:Hle; [reflexivity|].
  apply Nat.leb_gt in Hle. lia.
Qed.

End Headers.

(** C3.  What the headers loop does with lines whose markers are not
    followed by whitespace: the level recorded is the length of the line's
    first word, not the number of markers.  The line [#ab] starts with one
    marker and is recorded with level 3; the line [#hello] starts with one
    marker and is not recorded at all.  A line whose markers are followed
    by a space is recorded with the number of markers as its level. *)
Theorem header_level_is_first_word_length {T : Platform} :
  leading_markers "#ab" = 1 /\
  headers (fst (extract_metadata (fun _ => inr "#ab"%string) "a.md"))
    = [mk_header 3 "ab"] /\
  leading_markers "#hello" = 1 /\
  headers (fst (extract_metadata (fun _ => inr "#hello"%string) "a.md")) = [] /\
  headers (fst (extract_metadata (fun _ => inr "# ab"%string) "a.md"))
    = [mk_header 1 "ab"].
Proof.
  rewrite (extract_metadata_readable (fun _ => inr "#ab"%string) "a.md"
             "#ab" eq_refl),
    (extract_metadata_readable (fun _ => inr "#hello"%string) "a.md"
       "#hello" eq_refl),
    (extract_metadata_readable (fun _ => inr "# ab"%string) "a.md"
       "# ab" eq_refl).
  repeat split.
Qed.

(* ================================================================== *)
(** * Sorting *)
(* ================================================================== *)

Section Sorting.

Context {A K : Type} (key : A -> K) (ltb : K -> K -> bool).

Lemma insert_asc_perm (x : A) (l : list A) :
  Permutation (x :: l) (insert_asc key ltb x l).
Proof.
  induction l as [|y l IH]; cbn [insert_asc]; [reflexivity|].
  destruct (ltb (key y) (key x)); [|reflexivity].
  rewrite perm_swap. apply perm_skip, IH.
Qed.

Lemma insert_desc_perm (x : A) (l : list A) :
  Permutation (x :: l) (insert_desc key ltb x l).
Proof.
  induction l as [|y l IH]; cbn [insert_desc]; [reflexivity|].
  destruct (ltb (key x) (key y)); [|reflexivity].
  rewrite perm_swap. apply perm_skip, IH.
Qed.

(** [sorted] and [sorted(..., reverse=True)] rearrange their argument. *)
Lemma sorted_perm (l : list A) : Permutation l (sorted key ltb l).
Proof.
  induction l as [|x l IH]; cbn; [reflexivity|].
  rewrite <- insert_asc_perm. apply perm_skip, IH.
Qed.

Lemma sorted_reverse_perm (l : list A) :
  Permutation l (sorted_reverse key ltb l).
Proof.
  induction l as [|x l IH]; cbn; [reflexivity|].
  rewrite <- insert_desc_perm. apply perm_skip, IH.
Qed.

End Sorting.

(** ** Sorting a set of strings

    [all_tags] is a set, and a set is iterated in no particular order.
    [sorted(all_tags)] does not depend on that order: string comparison is
    a total order, so two enumerations of the same strings sort to the same
    list. *)

Section SortedStrings.

Lemma ltb_compare (a b : string) :
  String.ltb a b = true <-> String.compare a b = Lt.
Proof.
  unfold String.ltb. destruct (String.compare a b); split;
    congruence || discriminate.
Qed.

Lemma ltb_trans (a b c : string) :
  String.ltb a b = true -> String.ltb b c = true -> String.ltb a c = true.
Proof.
  rewrite !ltb_compare.
  change String.compare with String_as_OT.cmp.
  rewrite !String_as_OT.cmp_lt. apply String_as_OT.lt_trans.
Qed.

Lemma ltb_flip (a b : string) :
  String.compare a b = Gt -> String.ltb b a = true.
Proof.
  intros H. apply ltb_compare. rewrite String.compare_antisym, H. reflexivity.
Qed.

Lemma str_le_antisym (a b : string) : str_le a b -> str_le b a -> a = b.
Proof.
  unfold str_le. intros Hab Hba.
  destruct (String.compare a b) eqn:Hc.
  - apply String.compare_eq_iff, Hc.
  - apply ltb_compare in Hc. congruence.
  - apply ltb_flip in Hc. congruence.
Qed.

Lemma str_le_trans (a b c : string) : str_le a b -> str_le b c -> str_le a c.
Proof.
  unfold str_le. intros Hab Hbc.
  destruct (String.ltb c a) eqn:Hca; [exfalso | reflexivity].
  destruct (String.compare c b) eqn:Hc.
  - apply String.compare_eq_iff in Hc. subst c. congruence.
  - apply ltb_compare in Hc. congruence.
  - apply ltb_flip in Hc.
    pose proof (ltb_trans b c a Hc Hca). congruence.
Qed.

Lemma ltb_str_le (a b : string) : String.ltb a b = true -> str_le a b.
Proof.
  unfold str_le. intros Hab.
  destruct (String.ltb b a) eqn:Hba; [exfalso | reflexivity].
  apply ltb_compare in Hab, Hba.
  rewrite String.compare_antisym, Hba in Hab. discriminate.
Qed.

Lemma insert_asc_hd (x y : string) (l : list string) :
  HdRel str_le y l -> str_le y x ->
  HdRel str_le y (insert_asc (fun t => t) String.ltb x l).
Proof.
  intros Hhd Hyx. destruct l as [|z l]; cbn [insert_asc].
  - constructor. exact Hyx.
  - destruct (String.ltb z x); constructor.
    + inversion Hhd. assumption.
    + exact Hyx.
Qed.

Lemma insert_asc_sorted (x : string) (l : list string) :
  Sorted str_le l -> Sorted str_le (insert_asc (fun t => t) String.ltb x l).
Proof.
  induction l as [|y l IH]; intros Hs; cbn [insert_asc].
  - repeat constructor.
  - inversion Hs as [|? ? Hl Hhd]; subst.
    destruct (String.ltb y x) eqn:Hyx.
    + constructor; [apply IH, Hl|].
      apply insert_asc_hd; [exact Hhd | apply ltb_str_le, Hyx].
    + constructor; [exact Hs|]. constructor. exact Hyx.
Qed.

Lemma sorted_is_sorted (l : list string) :
  StronglySorted str_le (sorted (fun t => t) String.ltb l).
Proof.
  apply Sorted_StronglySorted.
  - intros a b c. apply str_le_trans.
  - induction l as [|x l IH]; cbn; [constructor|].
    apply insert_asc_sorted, IH.
Qed.

Lemma strongly_sorted_unique (l1 l2 : list string) :
  StronglySorted str_le l1 -> StronglySorted str_le l2 -> Permutation l1 l2 ->
  l1 = l2.
Proof.
  revert l2. induction l1 as [|a l1 IH]; intros l2 H1 H2 Hperm.
  - apply Permutation_nil in Hperm. congruence.
  - destruct l2 as [|b l2];
      [apply Permutation_sym, Permutation_nil in Hperm; discriminate|].
    apply StronglySorted_inv in H1 as [H1 Ha].
    apply StronglySorted_inv in H2 as [H2 Hb].
    rewrite Forall_forall in Ha, Hb.
    assert (Hab : a = b).
    { assert (Hina : In a (b :: l2))
        by (eapply Permutation_in; [exact Hperm | left; reflexivity]).
      assert (Hinb : In b (a :: l1))
        by (eapply Permutation_in;
            [symmetry; exact Hperm | left; reflexivity]).
      destruct Hina as [-> | Hina]; [reflexivity|].
      destruct Hinb as [-> | Hinb]; [reflexivity|].
      apply str_le_antisym; [apply Ha, Hinb | apply Hb, Hina]. }
    subst b. f_equal. apply IH; try assumption.
    apply Permutation_cons_inv in Hperm. exact Hperm.
Qed.

(** Two enumerations of the same tags sort to the same list. *)
Lemma sorted_of_set_canonical (s1 s2 : list string) :
  Permutation s1 s2 ->
  sorted (fun t => t) String.ltb s1 = sorted (fun t => t) String.ltb s2.
Proof.
  intros Hperm.
  apply strongly_sorted_unique; try apply sorted_is_sorted.
  rewrite <- (sorted_perm (fun t => t) String.ltb s1).
  rewrite <- (sorted_perm (fun t => t) String.ltb s2).
  exact Hperm.
Qed.

Lemma sorted_of_set_order_free (s1 s2 : list string) :
  NoDup s1 -> NoDup s2 -> (forall t, In t s1 <-> In t s2) ->
  sorted (fun t => t) String.ltb s1 = sorted (fun t => t) String.ltb s2.
Proof.
  intros Hn1 Hn2 Hsame.
  apply sorted_of_set_canonical, NoDup_Permutation; assumption.
Qed.

End SortedStrings.

(* ================================================================== *)
(** * The index *)
(* ================================================================== *)

Section Index.

Context {T : Platform}.

Lemma by_date_perm (documents : list Document) :
  Permutation documents (by_date documents).
Proof. apply sorted_reverse_perm. Qed.

Lemma by_date_length (documents : list Document) :
  List.length (by_date documents) = List.length documents.
Proof. symmetry. apply Permutation_length, by_date_perm. Qed.

Lemma dict_get_present (d : Groups) (key : string) :
  In key (map fst d) -> exists docs, dict_get d key = inr docs.
Proof.
  induction d as [|[k docs] d IH]; cbn [map fst In dict_get]; [contradiction|].
  intros [-> | Hin].
  - rewrite String.eqb_refl. eexists. reflexivity.
  - destruct (String.eqb k key); [eexists; reflexivity | apply IH, Hin].
Qed.

(** Every category looked up is a key of the dict, so no [KeyError]. *)
Lemma category_sections_total (d : Groups) (categories : list string) :
  (forall c, In c categories -> In c (map fst d)) ->
  exists sections, category_sections d categories = inr sections.
Proof.
  induction categories as [|c rest IH]; intros Hkeys; cbn [category_sections].
  - eexists. reflexivity.
  - destruct (dict_get_present d c (Hkeys c (or_introl eq_refl))) as [docs ->].
    destruct IH as [others ->].
    + intros c' Hc'. apply Hkeys. right. exact Hc'.
    + cbn [exc_bind]. eexists. reflexivity.
Qed.

Lemma sections_of_groups_total (documents : list Document) :
  exists sections,
    category_sections (group_by_category documents)
      (sorted (fun k => k) String.ltb (map fst (group_by_category documents)))
    = inr sections.
Proof.
  apply category_sections_total. intros c Hc.
  eapply Permutation_in; [symmetry; apply (sorted_perm (fun k => k) String.ltb) | exact Hc].
Qed.

Lemma last_update_total (docs_by_date : list Document) :
  exists updated, last_update docs_by_date = inr updated.
Proof. destruct docs_by_date; eexists; reflexivity. Qed.

Lemma largest_document_total (documents : list Document) :
  exists largest, largest_document documents = inr largest.
Proof. destruct documents; eexists; reflexivity. Qed.


End Index.

(** C7.  For the empty list of records, [generate_index] returns without
    raising, and the index it returns reports 0 documents in its header and
    in its statistics, 0 categories, and N/A both for the last update and
    for the largest document. *)
Theorem empty_index {T : Platform} (now : Datetime.datetime) :
  generate_index now [] =
  inr ("# 📚 Markdown Brain Index" ++ nl
       ++ nl
       ++ "> Last Updated: " ++ strftime_minutes now ++ nl
       ++ "> Total Documents: 0" ++ nl
       ++ nl
       ++ "## 🎯 Quick Access" ++ nl
       ++ nl
       ++ "## 📁 By Category" ++ nl
       ++ nl
       ++ "## 📊 Statistics" ++ nl
       ++ nl
       ++ "- **Total Documents**: 0" ++ nl
       ++ "- **Categories**: 0" ++ nl
       ++ "- **Last Update**: N/A" ++ nl
       ++ "- **Largest Document**: N/A" ++ nl
       ++ nl
       ++ "## 🏷️ All Tags" ++ nl
       ++ nl
       ++ "---" ++ nl
       ++ "*Auto-generated by update-index.py*" ++ nl)%string
  /\ last_update (by_date []) = inr "N/A"%string
  /\ largest_document [] = inr "N/A"%string
  /\ List.length (group_by_category []) = 0.
Proof.
  repeat split.
  unfold generate_index. cbn [exc_bind by_date sorted_reverse fold_right
    group_by_category fold_left map sorted category_sections last_update
    largest_document collect_tags List.length quick_access firstn].
  rewrite !string_app_assoc. reflexivity.
Qed.

(* ================================================================== *)
(** * Lines of the index *)
(* ================================================================== *)

Section Lines.

Context {T : Platform}.

Lemma mentions_app (c : ascii) (a b : string) :
  mentions c (a ++ b) = mentions c a || mentions c b.
Proof.
  induction a as [|x a IH]; cbn [append mentions]; [reflexivity|].
  rewrite IH. apply orb_assoc.
Qed.

Lemma digits_no_LF (d : Decimal.uint) :
  mentions LF (NilEmpty.string_of_uint d) = false.
Proof. induction d; cbn [NilEmpty.string_of_uint mentions]; auto. Qed.

Lemma str_of_nat_no_LF (n : nat) : mentions LF (str_of_nat n) = false.
Proof.
  unfold str_of_nat, NilZero.string_of_uint.
  destruct (Nat.to_uint n) eqn:Hd; try reflexivity;
    rewrite <- Hd; apply digits_no_LF.
Qed.

Lemma zeros_no_LF (k : nat) :
  mentions LF (String.concat "" (repeat "0"%string k)) = false.
Proof.
  induction k as [|k IH]; [reflexivity|].
  cbn [repeat String.concat]. destruct k as [|k]; [reflexivity|].
  cbn [repeat] in *. rewrite !mentions_app, IH. reflexivity.
Qed.

Lemma zero_pad_no_LF (width n : nat) :
  mentions LF (Datetime.zero_pad width n) = false.
Proof.
  unfold Datetime.zero_pad.
  rewrite mentions_app, zeros_no_LF, str_of_nat_no_LF. reflexivity.
Qed.

(** The timestamp of the header stays on its line. *)
Lemma strftime_minutes_no_LF (d : Datetime.datetime) :
  mentions LF (strftime_minutes d) = false.
Proof.
  unfold strftime_minutes, strftime_date.
  destruct (strftime_year_pads (Datetime.year d)) as [zeros ->].
  rewrite !mentions_app, !zero_pad_no_LF, zeros_no_LF, str_of_nat_no_LF.
  reflexivity.
Qed.

(** Splitting at line feeds: a text without line feed goes to the line
    being built, and a line feed ends that line. *)
Lemma split_go_no_LF (cur a b : string) :
  mentions LF a = false ->
  split_go nl 0 cur (a ++ b) = split_go nl 0 (cur ++ a) b.
Proof.
  revert cur. induction a as [|c a IH]; intros cur Hno.
  - rewrite string_app_nil_r. reflexivity.
  - cbn [mentions] in Hno. apply orb_false_iff in Hno as [Hc Ha].
    cbn [append split_go]. unfold nl at 1. cbn [String.prefix].
    destruct (ascii_dec LF c) as [<-|_]; [discriminate Hc|].
    rewrite (IH _ Ha), string_app_assoc. reflexivity.
Qed.

Lemma split_go_LF (cur b : string) :
  split_go nl 0 cur (nl ++ b) = cur :: split_go nl 0 "" b.
Proof. destruct b; reflexivity. Qed.

(** The first three lines of an index whose timestamp is [stamp]. *)
Lemma split_index_head (stamp rest : string) :
  mentions LF stamp = false ->
  split nl (index_head ++ stamp ++ nl ++ rest) =
  ["# 📚 Markdown Brain Index"%string; ""%string;
   ("> Last Updated: " ++ stamp)%string] ++ split nl rest.
Proof.
  intros Hstamp. unfold split, index_head.
  rewrite !string_app_assoc.
  rewrite split_go_no_LF by reflexivity. rewrite split_go_LF.
  rewrite split_go_LF.
  rewrite split_go_no_LF by reflexivity.
  rewrite split_go_no_LF by exact Hstamp.
  rewrite split_go_LF. reflexivity.
Qed.

End Lines.

(** C8.  For a fixed list of records, the index is the same text at every
    time of generation but for the timestamp of its third line: there is a
    text [rest], which the clock does not enter, such that the index
    generated at any time [now] is the heading, the timestamp of [now], a
    line feed and [rest]; its lines are the heading line, an empty line, the
    timestamp line, and the lines of [rest]. *)
Theorem index_varies_with_clock_line_only {T : Platform}
    (documents : list Document) :
  exists rest : string,
    forall now : Datetime.datetime,
      generate_index now documents =
        inr (index_head ++ strftime_minutes now ++ nl ++ rest)%string
      /\
      split nl (index_head ++ strftime_minutes now ++ nl ++ rest) =
        ["# 📚 Markdown Brain Index"%string; ""%string;
         ("> Last Updated: " ++ strftime_minutes now)%string]
        ++ split nl rest.
Proof.
  destruct (sections_of_groups_total documents) as [sections Hs].
  destruct (last_update_total (by_date documents)) as [updated Hu].
  destruct (largest_document_total documents) as [largest Hl].
  destruct (collect_tags documents) as [|tag others] eqn:Htags.
  - eexists. intros now. split.
    + unfold generate_index. rewrite Hs, Hu, Hl, Htags. cbn [exc_bind].
      rewrite !string_app_assoc. reflexivity.
    + apply split_index_head, strftime_minutes_no_LF.
  - eexists. intros now. split.
    + unfold generate_index. rewrite Hs, Hu, Hl, Htags. cbn [exc_bind].
      rewrite !string_app_assoc. reflexivity.
    + apply split_index_head, strftime_minutes_no_LF.
Qed.

(** C10.  The Quick Access section of the index comes right after its
    heading and holds one line for each of the first five records in the
    order of modification, latest first, and nothing else: the line of a
    record is a dash, its title in brackets, its path in parentheses, a
    dash and the day of its modification.  The records listed are
    [min(5, n)] of the [n] records given, none of them twice; with at most
    five records every record is listed. *)
Theorem quick_access_lists_min_five {T : Platform} (now : Datetime.datetime)
    (documents : list Document) :
  (exists after : string,
     generate_index now documents =
     inr (index_head ++ strftime_minutes now ++ nl
          ++ "> Total Documents: " ++ str_of_nat (List.length documents) ++ nl
          ++ nl
          ++ "## 🎯 Quick Access" ++ nl
          ++ String.concat ""
               (map (fun doc =>
                       "- [" ++ title (meta doc) ++ "](" ++ path doc ++ ") - "
                       ++ strftime_date (modified doc) ++ nl)
                    (firstn 5 (by_date documents)))
          ++ nl ++ "## 📁 By Category" ++ nl ++ nl ++ after)%string)
  /\
  List.length (firstn 5 (by_date documents))
    = Nat.min 5 (List.length documents)
  /\
  (exists others,
     Permutation documents (firstn 5 (by_date documents) ++ others))
  /\
  (List.length documents <= 5 ->
   Permutation documents (firstn 5 (by_date documents))).
Proof.
  split; [|split; [|split]].
  - destruct (sections_of_groups_total documents) as [sections Hs].
    destruct (last_update_total (by_date documents)) as [updated Hu].
    destruct (largest_document_total documents) as [largest Hl].
    destruct (collect_tags documents) as [|tag others] eqn:Htags.
    + eexists. unfold generate_index. rewrite Hs, Hu, Hl, Htags.
      cbn [exc_bind]. rewrite !string_app_assoc. reflexivity.
    + eexists. unfold generate_index. rewrite Hs, Hu, Hl, Htags.
      cbn [exc_bind]. rewrite !string_app_assoc. reflexivity.
  - rewrite length_firstn, by_date_length. reflexivity.
  - exists (skipn 5 (by_date documents)).
    rewrite firstn_skipn. apply by_date_perm.
  - intros Hfew.
    rewrite firstn_all2 by (rewrite by_date_length; exact Hfew).
    apply by_date_perm.
Qed.

(** Two records: both are listed, the later one first. *)
Lemma quick_access_lists_min_five_witness :
  Permutation [sample_a; sample_b] (firstn 5 (by_date [sample_a; sample_b]))
  /\
  exists after : string,
    generate_index (T := ascii_utc) sample_now [sample_a; sample_b] =
    inr (index_head ++ "2025-01-01 00:00" ++ nl
         ++ "> Total Documents: 2" ++ nl ++ nl
         ++ "## 🎯 Quick Access" ++ nl
         ++ "- [B](sub/b.md) - 2024-05-17" ++ nl
         ++ "- [A](a.md) - 2024-03-01" ++ nl
         ++ nl ++ "## 📁 By Category" ++ nl ++ nl ++ after)%string.
Proof.
  pose proof (quick_access_lists_min_five (T := ascii_utc) sample_now
                [sample_a; sample_b]) as ((after & Hindex) & _ & _ & Hall).
  split.
  - apply Hall. cbn. lia.
  - exists after. rewrite Hindex. reflexivity.
Defined.

(* ================================================================== *)
(** * The snapshot *)
(* ================================================================== *)

Section Snapshot.

Lemma entries_paths (documents : list Document) :
  fold_right
    (fun entry acc =>
       match entry_path entry, acc with
       | Some p, Some ps => Some (p :: ps)
       | _, _ => None
       end)
    (Some []) (map snapshot_entry documents)
  = Some (map path documents).
Proof.
  induction documents as [|doc rest IH]; [reflexivity|].
  cbn [map fold_right]. rewrite IH. reflexivity.
Qed.

Lemma snapshot_paths_spec (now : Datetime.datetime) (documents : list Document) :
  snapshot_paths (snapshot now documents) = Some (map path documents).
Proof. unfold snapshot_paths. cbn. apply entries_paths. Qed.

Lemma count_occ_once {A : Type} (dec : forall x y : A, {x = y} + {x <> y})
    (l : list A) (x : A) :
  NoDup l -> In x l -> count_occ dec l x = 1.
Proof.
  intros Hnd Hin. pose proof (proj1 (NoDup_count_occ dec l) Hnd x) as Hle.
  apply (count_occ_In dec) in Hin. lia.
Qed.

(** What is to be dumped does not depend on how the writing goes. *)
Lemma dumped_snapshot (out : Writer) (now : Datetime.datetime)
    (documents : list Document) :
  dumped (update_metadata_json out now documents) = snapshot now documents.
Proof.
  unfold update_metadata_json. destruct (out _ _); reflexivity.
Qed.

End Snapshot.

(** C5.  The snapshot [update_metadata_json] dumps has a [document_count]
    equal to the number of records and a [documents] array with one entry
    per record, in the order of the records, the entry of a record carrying
    its path.  So the paths read back from the snapshot are the paths of
    the records, each as many times as in the scan; when the paths of the
    scan are distinct, each is found exactly once. *)
Theorem snapshot_keeps_count_and_paths (out : Writer)
    (now : Datetime.datetime) (documents : list Document) :
  let written := dumped (update_metadata_json out now documents) in
  snapshot_count written = Some (List.length documents) /\
  (exists entries,
     json_get "documents" written = Some (JArray entries) /\
     List.length entries = List.length documents /\
     Forall2 (fun entry doc => entry_path entry = Some (path doc))
             entries documents) /\
  (exists paths,
     snapshot_paths written = Some paths /\
     paths = map path documents /\
     (forall p,
        count_occ string_dec paths p
        = count_occ string_dec (map path documents) p) /\
     (NoDup (map path documents) ->
      forall doc, In doc documents ->
        count_occ string_dec paths (path doc) = 1)).
Proof.
  cbn zeta. rewrite dumped_snapshot. split; [reflexivity | split].
  - exists (map snapshot_entry documents). split; [reflexivity | split].
    + apply length_map.
    + induction documents as [|doc rest IH]; cbn [map]; constructor.
      * reflexivity.
      * exact IH.
  - exists (map path documents). split; [apply snapshot_paths_spec | split].
    + reflexivity.
    + split; [reflexivity|].
      intros Hnd doc Hin. apply count_occ_once; [exact Hnd|].
      apply in_map, Hin.
Qed.

Lemma snapshot_keeps_count_and_paths_witness :
  snapshot_count
    (dumped (update_metadata_json sample_out sample_now [sample_a; sample_b]))
  = Some 2
  /\
  exists paths,
    snapshot_paths
      (dumped (update_metadata_json sample_out sample_now
                 [sample_a; sample_b]))
    = Some paths
    /\ count_occ string_dec paths "sub/b.md"%string = 1.
Proof.
  destruct (snapshot_keeps_count_and_paths sample_out sample_now
              [sample_a; sample_b])
    as (Hcount & _ & paths & Hpaths & _ & _ & Honce).
  split; [exact Hcount|].
  exists paths. split; [exact Hpaths|].
  apply (Honce ltac:(repeat constructor; cbn; intuition discriminate) sample_b).
  right. left. reflexivity.
Defined.

(* ================================================================== *)
(** * Worked examples *)
(* ================================================================== *)

(** Separators are found left to right and do not overlap. *)
Example split_three_line_feeds :
  split (nl ++ nl) ("a" ++ nl ++ nl ++ nl ++ "b") = ["a"%string; (nl ++ "b")%string].
Proof. reflexivity. Qed.

Example split_keeps_empty_pieces :
  split "/" "docs//api/" = ["docs"; ""; "api"; ""]%string.
Proof. reflexivity. Qed.

Example split_ws_words :
  split_ws "  ## Getting   started " = ["##"; "Getting"; "started"]%string.
Proof. reflexivity. Qed.

(** Whitespace of more than one byte is whitespace: the no-break space and
    the ideographic space are trimmed and separate words. *)
Example strip_no_break_space :
  strip (nbsp ++ "lead" ++ ideographic_space) = "lead"%string.
Proof. reflexivity. Qed.

Example split_ws_wide_spaces :
  split_ws ("##" ++ ideographic_space ++ "概要" ++ nbsp ++ "v2")
  = ["##"; "概要"; "v2"]%string.
Proof. reflexivity. Qed.

(** Characters are counted, not bytes. *)
Example len_counts_characters :
  len sample_kana_paragraph = 150 /\
  String.length sample_kana_paragraph = 450 /\
  take_chars 2 "日本語" = "日本"%string.
Proof. repeat split. Qed.

Example title_of_file_name :
  default_title (T := ascii_utc) "/docs/notes/api_rate-limits.v2.md"
  = "Api Rate Limits.V2"%string.
Proof. reflexivity. Qed.

Example title_of_hidden_name :
  default_title (T := ascii_utc) "docs/.md" = ".Md"%string.
Proof. reflexivity. Qed.

(** A heading of two characters after its marker is a word of three
    characters, whatever bytes encode them. *)
Example header_of_three_characters :
  headers (fst (extract_metadata (T := ascii_utc)
                  (fun _ => inr "#日本"%string) "a.md"))
  = [mk_header 3 "日本"].
Proof. reflexivity. Qed.

(** Three files: one that mentions a login, one that shows a dashboard, one
    with neither; their records, and the index sections in the order of the
    labels. *)
Example three_categories :
  let fs : FileSystem := fun p =>
    if String.eqb p "/d/one.md" then inr "How to LOGIN"%string
    else if String.eqb p "/d/two.md" then inr "The dashboard"%string
    else inr "Nothing here"%string in
  let record p n :=
    mk_document n p n sample_now 1
      (fst (extract_metadata (T := ascii_utc) fs p)) in
  let documents :=
    [record "/d/one.md" "one.md"; record "/d/two.md" "two.md";
     record "/d/six.md" "six.md"]%string in
  map (fun d => category (meta d)) documents
    = ["Authentication System"; "Admin & Management"; "Uncategorized"]%string
  /\ sorted (fun k => k) String.ltb (map fst (group_by_category documents))
    = ["Admin & Management"; "Authentication System"; "Uncategorized"]%string.
Proof. split; reflexivity. Qed.

(** A paragraph of 250 characters: 200 characters and three dots in the
    record, 60 characters and three dots in the index. *)
Example long_summary_twice_cut :
  let metadata :=
    fst (extract_metadata (T := ascii_utc)
           (fun _ => inr sample_long_text) "long.md") in
  len (summary metadata) = 203 /\
  category_entry (mk_document "long.md" "/d/long.md" "long.md" sample_now 257 metadata)
  = ("- [Notes](long.md) - " ++ String.concat "" (repeat "x"%string 60) ++ "..."
     ++ nl)%string.
Proof. split; reflexivity. Qed.

(** The clock of the examples: the first instant of 2025, and a time stamp
    of a year that cannot be shown. *)
Example fromtimestamp_of_samples :
  @fromtimestamp ascii_utc sample_mtime = inr sample_now /\
  @fromtimestamp ascii_utc 300000000000000000
  = inl (ValueError "year 11476 is out of range").
Proof. split; reflexivity. Qed.

(** A scan: hidden directories and the index itself are skipped, a file that
    cannot be read keeps its place with the defaults. *)
Example scan_of_small_tree :
  let stat := inr (mk_stat sample_mtime 10) in
  let tree :=
    Dir "" [("b.md"%string, stat); ("INDEX.md"%string, stat);
            ("notes.txt"%string, stat)]
        [Dir ".git" [("x.md"%string, stat)] [];
         Dir "sub" [("a.md"%string, stat)] []] in
  let fs : FileSystem := fun p =>
    if String.eqb p (DOCS_DIR ++ "/sub/a.md") then inr "# A"%string
    else inl (OSError "denied") in
  match scan_documents (T := ascii_utc) fs tree with
  | (printed, inr documents) =>
      map path documents = ["b.md"; "sub/a.md"]%string /\
      map (fun d => title (meta d)) documents = ["B"; "A"]%string /\
      map modified documents = [sample_now; sample_now] /\
      printed = [("Error processing " ++ DOCS_DIR ++ "/b.md: denied")%string]
  | (_, inl _) => False
  end.
Proof. cbv zeta. vm_compute. repeat split. Qed.

(** A scan that meets a time stamp that cannot be shown ends there, after
    the line printed for the file before. *)
Example scan_ends_at_time_stamp :
  scan_documents (T := ascii_utc) (fun _ => inl (OSError "denied"))
    (Dir "" [("a.md"%string, inr (mk_stat sample_mtime 10));
             ("b.md"%string, inr (mk_stat 300000000000000000 10));
             ("c.md"%string, inl (OSError "stat failed"))] [])
  = ([("Error processing " ++ DOCS_DIR ++ "/a.md: denied")%string],
     inl (ValueError "year 11476 is out of range")).
Proof. reflexivity. Qed.

(** A run whose snapshot cannot be written: the index has been written,
    the run ends with the exception, and its last line is the one printed
    before the snapshot. *)
Example run_without_snapshot :
  let out : Writer := fun p _ =>
    if String.eqb p (DOCS_DIR ++ "/metadata.json")
    then Some (OSError "[Errno 13] Permission denied") else None in
  let run :=
    main (T := ascii_utc) sample_fs out sample_tree sample_now sample_now in
  map (fun w => (fst (fst w), snd w)) (run_writes run)
  = [((DOCS_DIR ++ "/INDEX.md")%string, None);
     ((DOCS_DIR ++ "/metadata.json")%string,
      Some (OSError "[Errno 13] Permission denied"))]
  /\ run_raised run = Some (OSError "[Errno 13] Permission denied")
  /\ last (run_printed run) ""%string = "💾 Saving metadata..."%string.
Proof. cbv zeta. vm_compute. repeat split. Qed.

(** The most recent of two records comes first in Quick Access. *)
Example quick_access_of_two :
  quick_access (T := ascii_utc) (by_date [sample_a; sample_b])
  = [("- [B](sub/b.md) - 2024-05-17" ++ nl)%string;
     ("- [A](a.md) - 2024-03-01" ++ nl)%string].
Proof. reflexivity. Qed.

(* ================================================================== *)
(** * Further properties of [extract_metadata] *)
(* ================================================================== *)

Section FirstHeading.

Lemma find_all_false {A : Type} (f : A -> bool) (l : list A) :
  (forall x, In x l -> f x = false) -> find f l = None.
Proof.
  induction l as [|a l IH]; intros H; cbn [find]; [reflexivity|].
  rewrite (H a (or_introl eq_refl)). apply IH.
  intros x Hx. apply H. right. exact Hx.
Qed.

Lemma nth_error_first_ten {A : Type} (l : list A) (i : nat) :
  i < 10 -> nth_error (firstn 10 l) i = nth_error l i.
Proof.
  intros Hi. rewrite nth_error_firstn.
  destruct (Nat.ltb_spec i 10); [reflexivity | lia].
Qed.

Lemma in_first_ten {A : Type} (l : list A) (x : A) :
  In x (firstn 10 l) -> exists i, i < 10 /\ nth_error l i = Some x.
Proof.
  intros Hin. apply In_nth_error in Hin as [i Hi]. exists i.
  rewrite nth_error_firstn in Hi.
  destruct (Nat.ltb_spec i 10); [split; assumption | discriminate].
Qed.

(** A line that starts with a marker and a space is a header of level 1
    whose text is what follows, trimmed. *)
Lemma title_line_header (line : string) :
  startswith "# " line = true ->
  line_headers line = [mk_header 1 (strip (slice_from 2 line))].
Proof.
  unfold startswith. intros H. apply prefix_app in H as [r ->].
  change ("# " ++ r)%string with (markers 1 ++ String " " r)%string.
  destruct (spaced_heading_recorded 1 (String " " r)) as [_ ->]; try lia.
  - right. discriminate.
  - reflexivity.
Qed.

End FirstHeading.

(** X1.  For a file that could be read, the title is taken from the first of
    the first ten lines that starts with a marker and a space: it is what
    follows the two characters, trimmed of the whitespace of Unicode.  A
    heading further down is not looked at: when none of the first ten lines
    starts so, the title is the one made from the file name, its stem with
    underscores and hyphens turned into spaces, put in title case by
    [str.title] of the platform. *)
Theorem title_is_first_heading_of_ten {T : Platform} (fs : FileSystem)
    (file_path content : string) :
  fs file_path = inr content ->
  (forall i line,
     i < 10 ->
     nth_error (split nl content) i = Some line ->
     startswith "# " line = true ->
     (forall j earlier,
        j < i -> nth_error (split nl content) j = Some earlier ->
        startswith "# " earlier = false) ->
     title (fst (extract_metadata fs file_path)) = strip (slice_from 2 line))
  /\
  ((forall i line,
      i < 10 -> nth_error (split nl content) i = Some line ->
      startswith "# " line = false) ->
   title (fst (extract_metadata fs file_path))
   = str_title (replace "-" " " (replace "_" " " (path_stem file_path)))).
Proof.
  intros Hread. rewrite (extract_metadata_readable _ _ _ Hread).
  cbn [fst title extracted]. split.
  - intros i line Hi Hnth Hstart Hearlier.
    rewrite (find_first_index _ _ i line); [reflexivity | | exact Hstart |].
    + rewrite nth_error_first_ten by exact Hi. exact Hnth.
    + intros j y Hj Hy. rewrite nth_error_first_ten in Hy by lia.
      exact (Hearlier j y Hj Hy).
  - intros Hnone. rewrite find_all_false; [reflexivity|].
    intros x Hx. apply in_first_ten in Hx as (i & Hi & Hnth).
    exact (Hnone i x Hi Hnth).
Qed.

(** A heading on the second line, with an ideographic space after the
    marker's space and a no-break space at its end. *)
Lemma title_is_first_heading_of_ten_witness :
  title (fst (extract_metadata (T := ascii_utc)
                (fun _ => inr ("intro" ++ nl ++ "# " ++ ideographic_space
                               ++ "Rate limits" ++ nbsp ++ nl
                               ++ "# Second")%string)
                "rate.md"))
  = "Rate limits"%string.
Proof.
  refine (proj1 (title_is_first_heading_of_ten (T := ascii_utc)
            (fun _ => inr ("intro" ++ nl ++ "# " ++ ideographic_space
                           ++ "Rate limits" ++ nbsp ++ nl
                           ++ "# Second")%string)
            "rate.md" _ eq_refl)
          1 ("# " ++ ideographic_space ++ "Rate limits" ++ nbsp)%string
          _ eq_refl eq_refl _).
  - lia.
  - intros j earlier Hj Hnth. assert (j = 0) by lia. subst j.
    injection Hnth as <-. reflexivity.
Defined.

(** X2.  When the title of a readable file comes from a heading line, that
    same line is recorded among the headers, with level 1 and the title as
    text. *)
Theorem title_heading_is_a_header {T : Platform} (fs : FileSystem)
    (file_path content : string) (i : nat) (line : string) :
  fs file_path = inr content ->
  i < 10 ->
  nth_error (split nl content) i = Some line ->
  startswith "# " line = true ->
  (forall j earlier,
     j < i -> nth_error (split nl content) j = Some earlier ->
     startswith "# " earlier = false) ->
  In (mk_header 1 (title (fst (extract_metadata fs file_path))))
     (headers (fst (extract_metadata fs file_path))).
Proof.
  intros Hread Hi Hnth Hstart Hearlier.
  rewrite (extract_metadata_readable _ _ _ Hread).
  cbn [fst title headers extracted].
  rewrite (find_first_index _ _ i line); [| | exact Hstart |].
  - apply in_flat_map. exists line. split.
    + apply nth_error_In in Hnth. exact Hnth.
    + rewrite (title_line_header line Hstart). left. reflexivity.
  - rewrite nth_error_first_ten by exact Hi. exact Hnth.
  - intros j y Hj Hy. rewrite nth_error_first_ten in Hy by lia.
    exact (Hearlier j y Hj Hy).
Qed.

Lemma title_heading_is_a_header_witness :
  In (mk_header 1 "Rate limits")
     (headers (fst (extract_metadata (T := ascii_utc)
                      (fun _ => inr ("intro" ++ nl ++ "#  Rate limits " ++ nl
                                     ++ "## Second")%string)
                      "rate.md"))).
Proof.
  refine (title_heading_is_a_header (T := ascii_utc)
            (fun _ => inr ("intro" ++ nl ++ "#  Rate limits " ++ nl
                           ++ "## Second")%string)
            "rate.md" _ 1 "#  Rate limits "%string eq_refl _ eq_refl eq_refl _).
  - lia.
  - intros j earlier Hj Hnth. assert (j = 0) by lia. subst j.
    injection Hnth as <-. reflexivity.
Defined.

Section TagsOrder.

Lemma filter_map_hash (keep : string -> bool) (l : list string) :
  filter (fun t => keep (slice_from 1 t))
         (map (fun tag => ("#" ++ tag)%string) l)
  = map (fun tag => ("#" ++ tag)%string) (filter keep l).
Proof.
  induction l as [|x l IH]; [reflexivity|].
  cbn [map filter]. change (slice_from 1 ("#" ++ x)) with x.
  rewrite IH. destruct (keep x); reflexivity.
Qed.

Lemma hash_injective (a b : string) :
  ("#" ++ a)%string = ("#" ++ b)%string -> a = b.
Proof. intros H. injection H as ->. reflexivity. Qed.

Lemma NoDup_map_hash (l : list string) :
  NoDup l -> NoDup (map (fun tag => ("#" ++ tag)%string) l).
Proof.
  induction 1 as [|x l Hx Hl IH]; cbn [map]; constructor; [|exact IH].
  intros Hin. apply in_map_iff in Hin as (y & Heq & Hy).
  apply hash_injective in Heq. subst y. exact (Hx Hy).
Qed.

Lemma tag_patterns_NoDup : NoDup tag_patterns.
Proof. repeat constructor; cbn; intuition discriminate. Qed.

End TagsOrder.

(** X3.  The tags of a record are the list [#authentication], [#ui],
    [#api], [#security], [#admin], [#development], [#configuration] with
    some entries left out, so they keep that order whatever the order of
    the words in the text, and no tag occurs twice.  For a readable file
    the tag of a keyword is present exactly when the keyword occurs in the
    lower-cased content, the content as [str.lower] of the platform gives
    it. *)
Theorem tags_follow_fixed_order {T : Platform}
    (fs : FileSystem) (file_path : string) :
  let record := fst (extract_metadata fs file_path) in
  NoDup (tags record) /\
  (exists keep,
     tags record =
     filter keep
       ["#authentication"; "#ui"; "#api"; "#security"; "#admin";
        "#development"; "#configuration"]%string) /\
  (forall content,
     fs file_path = inr content ->
     forall keyword,
       In ("#" ++ keyword)%string (tags record) <->
       In keyword tag_patterns /\ contains keyword (str_lower content) = true).
Proof.
  cbv zeta. destruct (fs file_path) as [e | content] eqn:Hread.
  - rewrite (extract_metadata_unreadable _ _ _ Hread). cbn [fst tags default_metadata].
    split; [constructor | split].
    + exists (fun _ => false). reflexivity.
    + intros content Hc. discriminate Hc.
  - rewrite (extract_metadata_readable _ _ _ Hread). cbn [fst tags extracted].
    split; [|split].
    + apply NoDup_map_hash, NoDup_filter, tag_patterns_NoDup.
    + exists (fun t => contains (slice_from 1 t) (str_lower content)).
      symmetry.
      exact (filter_map_hash (fun t => contains t (str_lower content)) tag_patterns).
    + intros content' Hc keyword. injection Hc as <-.
      rewrite in_map_iff. split.
      * intros (t & Heq & Hin). apply hash_injective in Heq. subst t.
        apply filter_In in Hin. exact Hin.
      * intros Hin. exists keyword. split; [reflexivity|].
        apply filter_In. exact Hin.
Qed.

Lemma tags_follow_fixed_order_witness :
  In "#api"%string
     (tags (fst (extract_metadata (T := ascii_utc)
                   (fun _ => inr "Security of the API"%string) "s.md"))).
Proof.
  apply (proj2 (proj2 (tags_follow_fixed_order (T := ascii_utc)
                         (fun _ => inr "Security of the API"%string) "s.md"))
           "Security of the API"%string eq_refl "api"%string).
  split; [cbn; tauto | reflexivity].
Defined.

(** X4.  Every header a record holds has a level from 1 to 3, and its text
    has no whitespace at either end. *)
Theorem headers_have_level_one_to_three {T : Platform}
    (fs : FileSystem) (file_path : string) :
  Forall (fun h => 1 <= level h /\ level h <= 3 /\ strip (text h) = text h)
         (headers (fst (extract_metadata fs file_path))).
Proof.
  destruct (fs file_path) as [e | content] eqn:Hread.
  - rewrite (extract_metadata_unreadable _ _ _ Hread). constructor.
  - rewrite (extract_metadata_readable _ _ _ Hread). cbn [fst headers extracted].
    apply Forall_forall. intros h Hin.
    apply in_flat_map in Hin as (line & _ & Hh).
    unfold line_headers in Hh.
    destruct (startswith "#" line) eqn:Hstart; [|contradiction].
    destruct (split_ws line) as [|w ws] eqn:Hsplit; [contradiction|].
    destruct (Nat.leb (len w) 3) eqn:Hle; [|contradiction].
    destruct Hh as [<- | []]. cbn [level text].
    apply Nat.leb_le in Hle.
    pose proof (first_word_covers_markers line w ws Hsplit) as Hcover.
    apply startswith_marker in Hstart as [rest ->].
    cbn [leading_markers] in Hcover. rewrite Ascii.eqb_refl in Hcover.
    repeat split; [lia | exact Hle | apply strip_idempotent].
Qed.

(** X5.  The category of a record, whether the file could be read or not,
    is Uncategorized or one of the seven labels of the categories
    mapping. *)
Theorem category_is_one_of_eight {T : Platform}
    (fs : FileSystem) (file_path : string) :
  In (category (fst (extract_metadata fs file_path)))
     ["Uncategorized"; "Authentication System"; "Admin & Management";
      "Development & UI"; "API Documentation"; "Security"; "Configuration";
      "Notes & Memos"]%string.
Proof.
  destruct (fs file_path) as [e | content] eqn:Hread.
  - rewrite (extract_metadata_unreadable _ _ _ Hread). left. reflexivity.
  - rewrite (extract_metadata_readable _ _ _ Hread).
    cbn [fst category extracted]. unfold first_match.
    destruct (find _ CATEGORY_PATTERNS) as [item|] eqn:Hfind;
      [|left; reflexivity].
    apply find_some in Hfind as [Hin _]. right.
    change (In (fst item) (map fst CATEGORY_PATTERNS)).
    apply in_map, Hin.
Qed.

(** X6.  The summary of a record has at most 203 characters, counted as
    code points whatever bytes encode them, does not start with ['#'], and
    does not start with whitespace, that of Unicode included. *)
Theorem summary_is_short_and_clean {T : Platform} (fs : FileSystem)
    (file_path : string) :
  let s := summary (fst (extract_metadata fs file_path)) in
  len s <= 203 /\ startswith "#" s = false /\ lstrip s = s.
Proof.
  cbv zeta. destruct (fs file_path) as [e | content] eqn:Hread.
  - rewrite (extract_metadata_unreadable _ _ _ Hread).
    repeat split. cbn. lia.
  - rewrite (extract_metadata_readable _ _ _ Hread). cbn [fst summary extracted].
    destruct (paragraphs_of content) as [|p others] eqn:Hp;
      [repeat split; cbn; lia|].
    assert (Hin : In p (paragraphs_of content)) by (rewrite Hp; left; reflexivity).
    unfold paragraphs_of in Hin. apply in_map_iff in Hin as (q & <- & Hq).
    apply filter_In in Hq as [_ Hq]. apply qualifies_true in Hq as [Hne Hhash].
    pose proof (lstrip_strip q) as Hl.
    unfold truncate_summary.
    destruct (Nat.ltb 200 (len (strip q))) eqn:Hlong.
    + apply Nat.ltb_lt in Hlong.
      pose proof (len_take_chars 200 (strip q)) as Hlen.
      rewrite Nat.min_l in Hlen by lia.
      pose proof (len_le_length (take_chars 200 (strip q))) as Hbytes.
      assert (Hws : ws_len (take_chars 200 (strip q) ++ "...") = 0).
      { rewrite ws_len_three by lia.
        apply lstrip_fixed in Hl.
        rewrite <- (take_drop_chars 200 (strip q)), ws_len_three in Hl by lia.
        exact Hl. }
      split; [|split].
      * rewrite len_app, Hlen. change (len "...") with 3. lia.
      * destruct (strip q) as [|c r] eqn:Hs; [contradiction Hne; reflexivity|].
        unfold startswith in *. cbn [String.prefix] in Hhash.
        cbn [take_chars].
        destruct (is_continuation c); cbn [append String.prefix];
          (destruct (ascii_dec "#" c); [|reflexivity]);
          destruct r; discriminate Hhash.
      * apply lstrip_fixed, Hws.
    + apply Nat.ltb_ge in Hlong.
      repeat split; [lia | exact Hhash | exact Hl].
Qed.

(** X7.  [extract_metadata] prints a line exactly when reading the file
    raises: whatever text is read, nothing in the rest of the block raises,
    the first word of a line that starts with a marker being always
    there. *)
Theorem error_line_iff_read_raises {T : Platform}
    (fs : FileSystem) (file_path : string) :
  (exists e, fs file_path = inl e) <->
  snd (extract_metadata fs file_path) <> [].
Proof.
  destruct (fs file_path) as [e | content] eqn:Hread.
  - rewrite (extract_metadata_unreadable _ _ _ Hread). cbn [snd]. split.
    + intros _. discriminate.
    + intros _. exists e. reflexivity.
  - rewrite (extract_metadata_readable _ _ _ Hread). cbn [snd]. split.
    + intros [e He]. discriminate He.
    + intros H. contradiction H. reflexivity.
Qed.

Section DefaultTitle.

Lemma replace_removes (old new : ascii) (s : string) :
  Ascii.eqb new old = false -> mentions old (replace old new s) = false.
Proof.
  intros Hnew. induction s as [|c s IH]; [reflexivity|].
  cbn [replace mentions]. rewrite IH, orb_false_r.
  destruct (Ascii.eqb c old) eqn:Hc; [exact Hnew | exact Hc].
Qed.

Lemma replace_keeps_absent (c old new : ascii) (s : string) :
  Ascii.eqb new c = false -> mentions c s = false ->
  mentions c (replace old new s) = false.
Proof.
  intros Hnew. induction s as [|a s IH]; [reflexivity|].
  cbn [replace mentions]. intros H. apply orb_false_iff in H as [Ha Hs].
  rewrite (IH Hs), orb_false_r.
  destruct (Ascii.eqb a old); [exact Hnew | exact Ha].
Qed.

End DefaultTitle.

(** X8.  The title made from a file name holds neither an underscore nor a
    hyphen. *)
Theorem default_title_has_no_separator {T : Platform} (file_path : string) :
  mentions "_" (default_title file_path) = false /\
  mentions "-" (default_title file_path) = false.
Proof.
  unfold default_title. split.
  - apply title_adds_no_separator; [left; reflexivity|].
    apply replace_keeps_absent; [reflexivity|].
    apply replace_removes. reflexivity.
  - apply title_adds_no_separator; [right; reflexivity|].
    apply replace_removes. reflexivity.
Qed.

(* ================================================================== *)
(** * Further properties of [scan_documents] *)
(* ================================================================== *)

Section Scan.

Context {T : Platform}.

Variable fs : FileSystem.

Lemma scan_walk_unfold (root rel d : string) (files : list (string * Exc Stat))
    (dirs : list Tree) :
  scan_walk fs root rel (Dir d files dirs) =
  scan_bind (scan_files fs root rel files) (fun here =>
  scan_bind (scan_dirs (scan_walk fs) root rel dirs) (fun below =>
  scan_ret (here ++ below)%list)).
Proof. reflexivity. Qed.

Lemma scan_dirs_cons
    (walk : string -> string -> Tree -> Scan (list Document))
    (root rel : string) (sub : Tree) (ds : list Tree) :
  scan_dirs walk root rel (sub :: ds) =
  if startswith "." (dir_name_of sub) then scan_dirs walk root rel ds
  else
    scan_bind (walk (path_join root (dir_name_of sub))
                    (rel_join rel (dir_name_of sub)) sub) (fun first =>
    scan_bind (scan_dirs walk root rel ds) (fun others =>
    scan_ret (first ++ others)%list)).
Proof. reflexivity. Qed.

Lemma dir_name_of_prune (t : Tree) : dir_name_of (prune t) = dir_name_of t.
Proof. destruct t; reflexivity. Qed.

(** How two scans run one after the other end, and what they print. *)
Lemma scan_append_snd (r1 r2 : Scan (list Document)) :
  snd (scan_bind r1 (fun a => scan_bind r2 (fun b => scan_ret (a ++ b)%list)))
  = match snd r1, snd r2 with
    | inl e, _ => inl e
    | inr _, inl e => inl e
    | inr a, inr b => inr (a ++ b)%list
    end.
Proof. destruct r1 as [p1 [e1 | a]], r2 as [p2 [e2 | b]]; reflexivity. Qed.

Lemma scan_append_fst (r1 r2 : Scan (list Document)) :
  fst (scan_bind r1 (fun a => scan_bind r2 (fun b => scan_ret (a ++ b)%list)))
  = match snd r1 with
    | inl _ => fst r1
    | inr _ => (fst r1 ++ fst r2)%list
    end.
Proof.
  destruct r1 as [p1 [e1 | a]], r2 as [p2 [e2 | b]]; cbn;
    rewrite ?app_nil_r; reflexivity.
Qed.

(** One turn of the loop over the files, for a file the scan takes. *)
Lemma scan_files_cons_snd (root rel file : string) (stat_result : Exc Stat)
    (rest : list (string * Exc Stat)) :
  eligible file = true ->
  snd (scan_files fs root rel ((file, stat_result) :: rest)) =
  match stat_result with
  | inl e => inl e
  | inr stats =>
      match fromtimestamp (st_mtime stats) with
      | inl e => inl e
      | inr modified =>
          match snd (scan_files fs root rel rest) with
          | inl e => inl e
          | inr more =>
              inr (mk_document (rel_join rel file) (path_join root file) file
                     modified (st_size stats)
                     (fst (extract_metadata fs (path_join root file)))
                   :: more)
          end
      end
  end.
Proof.
  intros He. cbn [scan_files]. rewrite He. unfold quiet.
  destruct stat_result as [e | stats]; [reflexivity|]. cbn [scan_bind].
  destruct (fromtimestamp (st_mtime stats)) as [e | modified]; [reflexivity|].
  cbn [scan_bind].
  destruct (extract_metadata fs (path_join root file)) as [metadata printed].
  destruct (scan_files fs root rel rest) as [lines [e | more]]; reflexivity.
Qed.


Lemma scan_files_skip (root rel file : string) (stat_result : Exc Stat)
    (rest : list (string * Exc Stat)) :
  eligible file = false ->
  scan_files fs root rel ((file, stat_result) :: rest)
  = scan_files fs root rel rest.
Proof. intros He. cbn [scan_files]. rewrite He. reflexivity. Qed.

Lemma every_record_append (P : Document -> Prop)
    (r1 r2 : Scan (list Document)) :
  every_record P r1 -> every_record P r2 ->
  every_record P
    (scan_bind r1 (fun a => scan_bind r2 (fun b => scan_ret (a ++ b)%list))).
Proof.
  unfold every_record. rewrite scan_append_snd.
  destruct (snd r1) as [e1 | d1]; [exact (fun _ _ => I)|].
  destruct (snd r2) as [e2 | d2]; [exact (fun _ _ => I)|].
  intros H1 H2. apply Forall_app. split; assumption.
Qed.

Lemma scan_files_records (P : Document -> Prop) (root rel : string)
    (files : list (string * Exc Stat)) :
  (forall file stats modified,
     eligible file = true ->
     P (mk_document (rel_join rel file) (path_join root file) file
          modified (st_size stats)
          (fst (extract_metadata fs (path_join root file))))) ->
  every_record P (scan_files fs root rel files).
Proof.
  intros Hone. induction files as [|[file stat_result] rest IH].
  - cbn. constructor.
  - destruct (eligible file) eqn:He; [|rewrite (scan_files_skip _ _ _ _ _ He); exact IH].
    unfold every_record in *. rewrite (scan_files_cons_snd _ _ _ _ _ He).
    destruct stat_result as [e | stats]; [exact I|].
    destruct (fromtimestamp (st_mtime stats)) as [e | modified]; [exact I|].
    destruct (snd (scan_files fs root rel rest)) as [e | more]; [exact I|].
    constructor; [apply Hone, He | exact IH].
Qed.

Lemma scan_walk_records (P : string -> string -> Document -> Prop) (t : Tree) :
  (forall root rel file stats modified,
     eligible file = true ->
     P root rel
       (mk_document (rel_join rel file) (path_join root file) file
          modified (st_size stats)
          (fst (extract_metadata fs (path_join root file))))) ->
  (forall root rel d doc,
     P (path_join root d) (rel_join rel d) doc -> P root rel doc) ->
  forall root rel, every_record (P root rel) (scan_walk fs root rel t).
Proof.
  intros Hone Hup. induction t as [d files dirs IH] using Tree_induction.
  intros root rel. rewrite scan_walk_unfold.
  apply every_record_append.
  - apply scan_files_records. intros file stats modified He. apply Hone, He.
  - induction dirs as [|sub ds IHds]; [cbn; constructor|].
    rewrite scan_dirs_cons. inversion IH as [|? ? Hsub Hds]; subst.
    destruct (startswith "." (dir_name_of sub)); [apply IHds, Hds|].
    apply every_record_append; [|apply IHds, Hds].
    specialize (Hsub (path_join root (dir_name_of sub))
                     (rel_join rel (dir_name_of sub))).
    unfold every_record in *.
    destruct (snd (scan_walk fs _ _ sub)) as [e | docs]; [exact I|].
    eapply Forall_impl; [|exact Hsub].
    intros doc. apply Hup.
Qed.

End Scan.

(** X9.  Every record of a scan has the name of a file that ends in [.md]
    and is neither [INDEX.md] nor [QUICK_REFERENCE.md], a full path that is
    some directory joined with that name, and the metadata that
    [extract_metadata] gives for its full path. *)
Theorem scanned_records_are_eligible {T : Platform} (fs : FileSystem)
    (docs_tree : Tree) (documents : list Document) (printed : list string) :
  scan_documents fs docs_tree = (printed, inr documents) ->
  Forall
    (fun doc =>
       endswith ".md" (name doc) = true /\
       name doc <> INDEX_FILE /\ name doc <> QUICK_REF_FILE /\
       (exists dir, full_path doc = path_join dir (name doc)) /\
       meta doc = fst (extract_metadata fs (full_path doc)))
    documents.
Proof.
  intros Hscan. unfold scan_documents in Hscan.
  enough (H : every_record
                (fun doc =>
                   endswith ".md" (name doc) = true /\
                   name doc <> INDEX_FILE /\ name doc <> QUICK_REF_FILE /\
                   (exists dir, full_path doc = path_join dir (name doc)) /\
                   meta doc = fst (extract_metadata fs (full_path doc)))
                (scan_walk fs DOCS_DIR "" docs_tree))
    by (unfold every_record in H; rewrite Hscan in H; exact H).
  apply (scan_walk_records fs
           (fun _ _ doc =>
              endswith ".md" (name doc) = true /\
              name doc <> INDEX_FILE /\ name doc <> QUICK_REF_FILE /\
              (exists dir, full_path doc = path_join dir (name doc)) /\
              meta doc = fst (extract_metadata fs (full_path doc)))
           docs_tree).
  - intros root rel file stats modified He. cbn [name full_path meta].
    unfold eligible in He. apply andb_true_iff in He as [Hmd Hnot].
    apply negb_true_iff, orb_false_iff in Hnot as [Hi Hq].
    apply String.eqb_neq in Hi, Hq.
    repeat split; try assumption. exists root. reflexivity.
  - intros root rel d doc Hdoc. exact Hdoc.
Qed.

Lemma scanned_records_are_eligible_witness :
  exists documents printed,
    scan_documents (T := ascii_utc) sample_fs sample_tree
    = (printed, inr documents) /\
    Forall (fun doc =>
              meta doc
              = fst (extract_metadata (T := ascii_utc) sample_fs (full_path doc)))
           documents.
Proof.
  eexists. eexists. split; [reflexivity|].
  eapply Forall_impl;
    [|exact (scanned_records_are_eligible (T := ascii_utc) sample_fs
               sample_tree _ _ eq_refl)].
  intros doc H. apply H.
Defined.

Section ScanPaths.

Context {T : Platform}.

Variable fs : FileSystem.

Lemma root_of_child (rel d : string) :
  d <> ""%string ->
  path_join (root_of rel) d = root_of (rel_join rel d).
Proof.
  intros Hd. unfold root_of, rel_join, path_join.
  destruct (String.eqb rel "") eqn:Hrel.
  - apply String.eqb_neq in Hd. rewrite Hd. reflexivity.
  - destruct (String.eqb (rel ++ "/" ++ d) "") eqn:Hempty.
    + apply String.eqb_eq in Hempty. destruct rel; [|discriminate Hempty].
      discriminate Hrel.
    + rewrite !string_app_assoc. reflexivity.
Qed.

Lemma root_of_file (rel file : string) :
  path_join (root_of rel) file = path_join DOCS_DIR (rel_join rel file).
Proof.
  unfold root_of, rel_join, path_join.
  destruct (String.eqb rel ""); [reflexivity|].
  rewrite !string_app_assoc. reflexivity.
Qed.

Lemma scan_walk_paths (t : Tree) :
  named t ->
  forall rel,
    every_record
      (fun doc =>
         full_path doc = path_join DOCS_DIR (path doc) /\
         exists rel', path doc = rel_join rel' (name doc))
      (scan_walk fs (root_of rel) rel t).
Proof.
  induction t as [d files dirs IH] using Tree_induction.
  intros Hnamed rel. rewrite scan_walk_unfold.
  apply every_record_append.
  - apply scan_files_records. intros file stats modified _.
    cbn [full_path path name].
    split; [apply root_of_file | exists rel; reflexivity].
  - cbn [named] in Hnamed.
    induction dirs as [|sub ds IHds]; [cbn; constructor|].
    destruct Hnamed as (Hname & Hsub & Hrest).
    inversion IH as [|? ? Hp Hps]; subst.
    rewrite scan_dirs_cons.
    destruct (startswith "." (dir_name_of sub)); [exact (IHds Hps Hrest)|].
    apply every_record_append; [|exact (IHds Hps Hrest)].
    rewrite (root_of_child rel (dir_name_of sub) Hname).
    apply Hp, Hsub.
Qed.

End ScanPaths.

(** X10.  In a tree whose directories have names, the full path of every
    record of a scan is [DOCS_DIR] joined with its relative path, and the
    relative path is the name of the file, alone or after a directory. *)
Theorem scanned_paths_are_below_docs_dir {T : Platform} (fs : FileSystem)
    (docs_tree : Tree) (documents : list Document) (printed : list string) :
  named docs_tree ->
  scan_documents fs docs_tree = (printed, inr documents) ->
  Forall
    (fun doc =>
       full_path doc = (DOCS_DIR ++ "/" ++ path doc)%string /\
       (path doc = name doc \/
        exists dir, path doc = (dir ++ "/" ++ name doc)%string))
    documents.
Proof.
  intros Hnamed Hscan. unfold scan_documents in Hscan.
  pose proof (scan_walk_paths fs docs_tree Hnamed ""%string) as H.
  change (root_of "") with DOCS_DIR in H. unfold every_record in H.
  rewrite Hscan in H. cbn [snd] in H.
  eapply Forall_impl; [|exact H].
  intros doc [Hfull [rel Hpath]]. split; [exact Hfull|].
  unfold rel_join in Hpath. destruct (String.eqb rel "").
  - left. exact Hpath.
  - right. exists rel. exact Hpath.
Qed.

Lemma scanned_paths_are_below_docs_dir_witness :
  exists documents printed,
    scan_documents (T := ascii_utc) sample_fs sample_tree
    = (printed, inr documents) /\
    Forall (fun doc => full_path doc = (DOCS_DIR ++ "/" ++ path doc)%string)
           documents.
Proof.
  eexists. eexists. split; [reflexivity|].
  eapply Forall_impl;
    [|refine (scanned_paths_are_below_docs_dir (T := ascii_utc) sample_fs
                sample_tree _ _ _ eq_refl)].
  - intros doc H. apply H.
  - cbn. repeat split; discriminate.
Defined.

Section HiddenDirectories.

Context {T : Platform}.

Variable fs : FileSystem.

Lemma scan_walk_prune (t : Tree) :
  forall root rel,
    scan_walk fs root rel (prune t) = scan_walk fs root rel t.
Proof.
  induction t as [d files dirs IH] using Tree_induction.
  intros root rel. cbn [prune]. rewrite !scan_walk_unfold.
  f_equal. apply f_equal with (f := fun r => fun here => scan_bind r _).
  induction dirs as [|sub ds IHds]; [reflexivity|].
  inversion IH as [|? ? Hsub Hds]; subst.
  rewrite scan_dirs_cons.
  destruct (startswith "." (dir_name_of sub)) eqn:Hhidden; [exact (IHds Hds)|].
  rewrite scan_dirs_cons, dir_name_of_prune, Hhidden, Hsub, (IHds Hds).
  reflexivity.
Qed.

End HiddenDirectories.

(** X11.  Directories whose name starts with a dot do not enter a scan, at
    any depth: the scan of a tree is the scan of the tree without them,
    whatever they hold, be it files whose [os.stat] raises. *)
Theorem hidden_directories_are_not_scanned {T : Platform} (fs : FileSystem)
    (docs_tree : Tree) :
  scan_documents fs (prune docs_tree) = scan_documents fs docs_tree.
Proof. apply scan_walk_prune. Qed.

Section Readability.

Context {T : Platform}.

Variables fs1 fs2 : FileSystem.

Lemma same_listing_append (a1 a2 b1 b2 : Scan (list Document)) :
  same_listing a1 a2 -> same_listing b1 b2 ->
  same_listing
    (scan_bind a1 (fun a => scan_bind b1 (fun b => scan_ret (a ++ b)%list)))
    (scan_bind a2 (fun a => scan_bind b2 (fun b => scan_ret (a ++ b)%list))).
Proof.
  unfold same_listing. rewrite !scan_append_snd.
  destruct (snd a1) as [e1 | d1], (snd a2) as [e2 | d2];
    try contradiction; [exact (fun H _ => H)|].
  destruct (snd b1) as [f1 | c1], (snd b2) as [f2 | c2];
    try contradiction; [exact (fun _ H => H)|].
  intros Ha Hb. rewrite !map_app, Ha, Hb. reflexivity.
Qed.

Lemma scan_files_same_listing (root rel : string)
    (files : list (string * Exc Stat)) :
  same_listing (scan_files fs1 root rel files) (scan_files fs2 root rel files).
Proof.
  induction files as [|[file stat_result] rest IH]; [reflexivity|].
  destruct (eligible file) eqn:He;
    [|rewrite !(scan_files_skip _ _ _ _ _ _ He); exact IH].
  unfold same_listing in *. rewrite !(scan_files_cons_snd _ _ _ _ _ _ He).
  destruct stat_result as [e | stats]; [reflexivity|].
  destruct (fromtimestamp (st_mtime stats)) as [e | shown]; [reflexivity|].
  destruct (snd (scan_files fs1 root rel rest)) as [e1 | d1],
           (snd (scan_files fs2 root rel rest)) as [e2 | d2];
    try contradiction; [exact IH|].
  cbn [map listing path full_path name modified size]. rewrite IH.
  reflexivity.
Qed.

Lemma scan_walk_same_listing (t : Tree) :
  forall root rel,
    same_listing (scan_walk fs1 root rel t) (scan_walk fs2 root rel t).
Proof.
  induction t as [d files dirs IH] using Tree_induction.
  intros root rel. rewrite !scan_walk_unfold.
  apply same_listing_append; [apply scan_files_same_listing|].
  induction dirs as [|sub ds IHds]; [reflexivity|].
  inversion IH as [|? ? Hsub Hds]; subst.
  rewrite !scan_dirs_cons.
  destruct (startswith "." (dir_name_of sub)); [exact (IHds Hds)|].
  apply same_listing_append; [apply Hsub | exact (IHds Hds)].
Qed.

End Readability.

(** X12.  What the files contain, and whether they can be read, changes
    neither the outcome of a scan nor the files it lists: two scans of one
    tree end with the same exception, or both give records with the same
    paths, names, modification times and sizes, in the same order. *)
Theorem scan_lists_files_whatever_they_hold {T : Platform}
    (fs1 fs2 : FileSystem) (docs_tree : Tree) :
  match snd (scan_documents fs1 docs_tree),
        snd (scan_documents fs2 docs_tree) with
  | inl e1, inl e2 => e1 = e2
  | inr documents1, inr documents2 =>
      map (fun doc => (path doc, full_path doc, name doc, modified doc, size doc))
          documents1
      = map (fun doc => (path doc, full_path doc, name doc, modified doc, size doc))
            documents2
  | _, _ => False
  end.
Proof. exact (scan_walk_same_listing fs1 fs2 docs_tree DOCS_DIR ""%string). Qed.



(* ================================================================== *)
(** * Further properties of [generate_index] *)
(* ================================================================== *)

Section DatetimeOrder.

Lemma lex_ltb_irrefl (a : list nat) : Datetime.lex_ltb a a = false.
Proof.
  induction a as [|x a IH]; [reflexivity|].
  cbn [Datetime.lex_ltb]. rewrite Nat.ltb_irrefl. exact IH.
Qed.

Lemma lex_ltb_asym (a b : list nat) :
  Datetime.lex_ltb a b = true -> Datetime.lex_ltb b a = false.
Proof.
  revert b. induction a as [|x a IH]; intros [|y b]; cbn [Datetime.lex_ltb];
    try discriminate; try reflexivity.
  destruct (Nat.ltb_spec x y), (Nat.ltb_spec y x);
    try lia; try discriminate; try reflexivity. apply IH.
Qed.

(** A time not before a second one, itself not before a third, is not
    before the third. *)
Lemma lex_ltb_not_before (a b c : list nat) :
  Datetime.lex_ltb a b = false -> Datetime.lex_ltb b c = false ->
  Datetime.lex_ltb a c = false.
Proof.
  revert b c. induction a as [|x a IH]; intros [|y b] [|z c];
    cbn [Datetime.lex_ltb]; try discriminate; try reflexivity.
  destruct (Nat.ltb_spec x y), (Nat.ltb_spec y x), (Nat.ltb_spec y z),
    (Nat.ltb_spec z y), (Nat.ltb_spec x z), (Nat.ltb_spec z x);
    try lia; try discriminate; try reflexivity. apply IH.
Qed.

Lemma same_time_fields (a b : Datetime.datetime) :
  same_time a b = true <-> Datetime.fields a = Datetime.fields b.
Proof.
  unfold same_time.
  destruct (list_eq_dec Nat.eq_dec (Datetime.fields a) (Datetime.fields b));
    split; congruence.
Qed.

Lemma same_time_not_before (a b : Datetime.datetime) :
  same_time a b = true -> Datetime.ltb a b = false.
Proof.
  rewrite same_time_fields. unfold Datetime.ltb. intros ->.
  apply lex_ltb_irrefl.
Qed.

End DatetimeOrder.

Section Descending.

Context {A K : Type} (key : A -> K) (ltb : K -> K -> bool).

Hypothesis ltb_asym : forall a b, ltb a b = true -> ltb b a = false.
Hypothesis ltb_not_before :
  forall a b c, ltb a b = false -> ltb b c = false -> ltb a c = false.

Let not_before (a b : A) : Prop := ltb (key a) (key b) = false.

Lemma insert_desc_hd (x y : A) (l : list A) :
  HdRel not_before y l -> not_before y x ->
  HdRel not_before y (insert_desc key ltb x l).
Proof.
  intros Hhd Hyx. destruct l as [|z l]; cbn [insert_desc].
  - constructor. exact Hyx.
  - destruct (ltb (key x) (key z)); constructor.
    + inversion Hhd. assumption.
    + exact Hyx.
Qed.

Lemma insert_desc_sorted (x : A) (l : list A) :
  Sorted not_before l -> Sorted not_before (insert_desc key ltb x l).
Proof.
  induction l as [|y l IH]; intros Hs; cbn [insert_desc].
  - repeat constructor.
  - inversion Hs as [|? ? Hl Hhd]; subst.
    destruct (ltb (key x) (key y)) eqn:Hxy.
    + constructor; [apply IH, Hl|].
      apply insert_desc_hd; [exact Hhd | apply ltb_asym, Hxy].
    + constructor; [exact Hs|]. constructor. exact Hxy.
Qed.

Lemma sorted_reverse_sorted (l : list A) :
  StronglySorted not_before (sorted_reverse key ltb l).
Proof.
  apply Sorted_StronglySorted.
  - intros a b c. apply ltb_not_before.
  - induction l as [|x l IH]; cbn; [constructor|].
    apply insert_desc_sorted, IH.
Qed.

(** The sort is stable: the elements that pass a test on which no two of
    them are ordered keep their order. *)
Lemma insert_desc_filter (same : A -> bool) (x : A) (l : list A) :
  (forall a b, same a = true -> same b = true -> ltb (key a) (key b) = false) ->
  filter same (insert_desc key ltb x l) = filter same (x :: l).
Proof.
  intros Hsame. induction l as [|y l IH]; [reflexivity|].
  cbn [insert_desc]. destruct (ltb (key x) (key y)) eqn:Hxy; [|reflexivity].
  cbn [filter] in *. rewrite IH.
  destruct (same x) eqn:Hx; [|reflexivity].
  destruct (same y) eqn:Hy; [|reflexivity].
  rewrite (Hsame x y Hx Hy) in Hxy. discriminate.
Qed.

Lemma sorted_reverse_stable (same : A -> bool) (l : list A) :
  (forall a b, same a = true -> same b = true -> ltb (key a) (key b) = false) ->
  filter same (sorted_reverse key ltb l) = filter same l.
Proof.
  intros Hsame. induction l as [|x l IH]; [reflexivity|].
  cbn [sorted_reverse fold_right].
  rewrite (insert_desc_filter same x _ Hsame). cbn [filter].
  unfold sorted_reverse in IH. rewrite IH. reflexivity.
Qed.

End Descending.

Section ByDate.

Lemma datetime_ltb_asym (a b : Datetime.datetime) :
  Datetime.ltb a b = true -> Datetime.ltb b a = false.
Proof. apply lex_ltb_asym. Qed.

Lemma datetime_ltb_not_before (a b c : Datetime.datetime) :
  Datetime.ltb a b = false -> Datetime.ltb b c = false ->
  Datetime.ltb a c = false.
Proof. apply lex_ltb_not_before. Qed.

Lemma by_date_sorted (documents : list Document) :
  StronglySorted
    (fun a b => Datetime.ltb (modified a) (modified b) = false)
    (by_date documents).
Proof.
  exact (sorted_reverse_sorted modified Datetime.ltb datetime_ltb_asym
           datetime_ltb_not_before documents).
Qed.

Lemma strongly_sorted_across {A : Type} (R : A -> A -> Prop) (l1 l2 : list A) :
  StronglySorted R (l1 ++ l2) ->
  forall a b, In a l1 -> In b l2 -> R a b.
Proof.
  induction l1 as [|x l1 IH]; intros Hs a b Ha Hb; [contradiction|].
  cbn [app] in Hs. apply StronglySorted_inv in Hs as [Hs Hx].
  destruct Ha as [<- | Ha].
  - rewrite Forall_forall in Hx. apply Hx, in_or_app. right. exact Hb.
  - exact (IH Hs a b Ha Hb).
Qed.

End ByDate.

(** X14.  [docs_by_date] holds the records of the input, each once, the
    latest modification first: no record comes before one modified later;
    records modified at the same time keep the order of the input; and no
    record past the first five, which Quick Access lists, was modified
    later than one of these five. *)
Theorem by_date_latest_first_and_stable (documents : list Document) :
  Permutation documents (by_date documents) /\
  StronglySorted
    (fun a b => Datetime.ltb (modified a) (modified b) = false)
    (by_date documents) /\
  (forall time,
     filter (fun doc => same_time (modified doc) time) (by_date documents)
     = filter (fun doc => same_time (modified doc) time) documents) /\
  (forall listed left_out,
     In listed (firstn 5 (by_date documents)) ->
     In left_out (skipn 5 (by_date documents)) ->
     Datetime.ltb (modified listed) (modified left_out) = false).
Proof.
  split; [apply by_date_perm | split; [apply by_date_sorted | split]].
  - intros time. apply sorted_reverse_stable. intros a b Ha Hb.
    apply same_time_not_before. apply same_time_fields in Ha, Hb.
    apply same_time_fields. congruence.
  - intros listed left_out Hin Hout.
    apply (strongly_sorted_across
             (fun a b => Datetime.ltb (modified a) (modified b) = false)
             (firstn 5 (by_date documents)) (skipn 5 (by_date documents)));
      try assumption.
    rewrite firstn_skipn. apply by_date_sorted.
Qed.

Lemma by_date_latest_first_and_stable_witness :
  Datetime.ltb (modified sample_b) (modified sample_a) = false.
Proof.
  destruct (by_date_latest_first_and_stable
              [sample_a; sample_a; sample_a; sample_a; sample_b; sample_a])
    as (_ & _ & _ & H).
  apply H; cbn; tauto.
Defined.

(** X15.  For a list of records that is not empty, the Last Update of the
    statistics is the modification time of one of the records, and no
    record was modified later. *)
Theorem last_update_is_latest_modification {T : Platform}
    (documents : list Document) :
  documents <> [] ->
  exists doc,
    In doc documents /\
    last_update (by_date documents)
      = inr (strftime_minutes (modified doc)) /\
    forall other,
      In other documents ->
      Datetime.ltb (modified doc) (modified other) = false.
Proof.
  intros Hne.
  pose proof (by_date_perm documents) as Hperm.
  pose proof (by_date_sorted documents) as Hsorted.
  destruct (by_date documents) as [|doc rest] eqn:Hby.
  - apply Permutation_sym, Permutation_nil in Hperm. contradiction.
  - exists doc. split; [|split].
    + eapply Permutation_in; [symmetry; exact Hperm | left; reflexivity].
    + reflexivity.
    + intros other Hin.
      apply (Permutation_in _ Hperm) in Hin as [<- | Hin].
      * apply lex_ltb_irrefl.
      * apply StronglySorted_inv in Hsorted as [_ Hall].
        rewrite Forall_forall in Hall. apply Hall, Hin.
Qed.

Lemma last_update_is_latest_modification_witness :
  exists doc,
    In doc [sample_a; sample_b] /\
    last_update (T := ascii_utc) (by_date [sample_a; sample_b])
      = inr (strftime_minutes (T := ascii_utc) (modified doc)).
Proof.
  destruct (last_update_is_latest_modification (T := ascii_utc) [sample_a; sample_b])
    as (doc & Hin & Hlast & _); [discriminate|].
  exists doc. split; assumption.
Defined.

Section Largest.

Context {A : Type} (key : A -> nat).

(** [max] returns the first element none is greater than. *)
Lemma max_from_first_greatest (best : A) (l : list A) :
  exists before after,
    best :: l = before ++ max_from key Nat.ltb best l :: after /\
    (forall x, In x before -> key x < key (max_from key Nat.ltb best l)) /\
    (forall x, In x after -> key x <= key (max_from key Nat.ltb best l)).
Proof.
  revert best. induction l as [|x l IH]; intros best.
  - exists [], []. cbn. repeat split; contradiction.
  - cbn [max_from]. destruct (Nat.ltb_spec (key best) (key x)) as [Hlt | Hge].
    + destruct (IH x) as (before & after & Heq & Hb & Ha).
      exists (best :: before), after. split; [|split].
      * cbn [app]. rewrite <- Heq. reflexivity.
      * intros y [<- | Hy]; [|apply Hb, Hy].
        destruct before as [|b0 before].
        -- cbn [app] in Heq. injection Heq as Hx _. rewrite <- Hx. exact Hlt.
        -- cbn [app] in Heq. injection Heq as <- _.
           specialize (Hb x (or_introl eq_refl)). lia.
      * exact Ha.
    + destruct (IH best) as (before & after & Heq & Hb & Ha).
      destruct before as [|b0 before].
      * cbn [app] in Heq. injection Heq as Hm Hl.
        exists [], (x :: after). split; [|split].
        -- cbn [app]. f_equal; [exact Hm | f_equal; exact Hl].
        -- intros y [].
        -- intros y [<- | Hy]; [rewrite <- Hm; exact Hge | apply Ha, Hy].
      * cbn [app] in Heq. injection Heq as <- Hl.
        exists (best :: x :: before), after. split; [|split].
        -- cbn [app]. do 2 f_equal. exact Hl.
        -- intros y [<- | [<- | Hy]].
           ++ apply Hb. left. reflexivity.
           ++ specialize (Hb best (or_introl eq_refl)). lia.
           ++ apply Hb. right. exact Hy.
        -- exact Ha.
Qed.

End Largest.

(** X16.  For a list of records that is not empty, the Largest Document of
    the statistics is the name of a record no record is larger than, and of
    the first such record of the input: the records before it are strictly
    smaller. *)
Theorem largest_document_is_first_greatest (documents : list Document) :
  documents <> [] ->
  exists before doc after,
    documents = before ++ doc :: after /\
    largest_document documents = inr (name doc) /\
    (forall other, In other before -> size other < size doc) /\
    (forall other, In other after -> size other <= size doc).
Proof.
  intros Hne. destruct documents as [|first rest]; [contradiction Hne; reflexivity|].
  destruct (max_from_first_greatest size first rest)
    as (before & after & Heq & Hb & Ha).
  exists before, (max_from size Nat.ltb first rest), after.
  repeat split; assumption.
Qed.

Lemma largest_document_is_first_greatest_witness :
  exists before doc after,
    [sample_b; sample_a; sample_a] = before ++ doc :: after /\
    largest_document [sample_b; sample_a; sample_a] = inr (name doc) /\
    (forall other, In other before -> size other < size doc).
Proof.
  destruct (largest_document_is_first_greatest [sample_b; sample_a; sample_a])
    as (before & doc & after & Heq & Hl & Hb & _); [discriminate|].
  exists before, doc, after. repeat split; assumption.
Defined.

Section Grouping.

Lemma dict_get_append (category : string) (doc : Document) (g : Groups)
    (key : string) :
  dict_get (dict_append category doc g) key =
  if String.eqb category key
  then inr (match dict_get g category with
            | inr docs => docs ++ [doc]
            | inl _ => [doc]
            end)
  else dict_get g key.
Proof.
  induction g as [|[k docs] g IH]; cbn [dict_append dict_get].
  - destruct (String.eqb category key); reflexivity.
  - destruct (String.eqb k category) eqn:Hk; cbn [dict_get].
    + apply String.eqb_eq in Hk. subst k.
      destruct (String.eqb category key); reflexivity.
    + rewrite IH. destruct (String.eqb category key) eqn:Hc; [|reflexivity].
      apply String.eqb_eq in Hc. subst key. rewrite Hk. reflexivity.
Qed.

Lemma dict_get_missing (g : Groups) (key : string) (e : exception) :
  dict_get g key = inl e -> e = KeyError key.
Proof.
  induction g as [|[k docs] g IH]; cbn [dict_get].
  - intros H. injection H as <-. reflexivity.
  - destruct (String.eqb k key); [discriminate | exact IH].
Qed.

Lemma dict_get_fold (documents : list Document) (g : Groups) (key : string) :
  dict_get
    (fold_left (fun d doc => dict_append (category (meta doc)) doc d)
               documents g) key
  = match dict_get g key,
          filter (fun doc => String.eqb (category (meta doc)) key) documents with
    | inr docs, found => inr (docs ++ found)
    | inl _, [] => inl (KeyError key)
    | inl _, found => inr found
    end.
Proof.
  revert g. induction documents as [|doc rest IH]; intros g.
  - cbn [fold_left filter]. destruct (dict_get g key) as [e | docs] eqn:Hg.
    + apply dict_get_missing in Hg. subst e. reflexivity.
    + rewrite app_nil_r. reflexivity.
  - cbn [fold_left filter]. rewrite IH, dict_get_append.
    destruct (String.eqb (category (meta doc)) key) eqn:Hc.
    + apply String.eqb_eq in Hc. rewrite Hc.
      destruct (dict_get g key) as [e | docs].
      * reflexivity.
      * rewrite <- app_assoc. reflexivity.
    + reflexivity.
Qed.

Lemma in_keys_dict_get (g : Groups) (key : string) :
  In key (map fst g) <-> exists docs, dict_get g key = inr docs.
Proof.
  induction g as [|[k docs] g IH]; cbn [map fst In dict_get].
  - split; [contradiction | intros [docs H]; discriminate H].
  - destruct (String.eqb k key) eqn:Hk.
    + apply String.eqb_eq in Hk. split; [eexists; reflexivity | left; exact Hk].
    + apply String.eqb_neq in Hk. rewrite <- IH. tauto.
Qed.

Lemma keys_dict_append (category : string) (doc : Document) (g : Groups)
    (key : string) :
  In key (map fst (dict_append category doc g)) <->
  In key (map fst g) \/ key = category.
Proof.
  rewrite !in_keys_dict_get, dict_get_append.
  destruct (String.eqb category key) eqn:Hc.
  - apply String.eqb_eq in Hc. split; [right; congruence | eexists; reflexivity].
  - apply String.eqb_neq in Hc. split; [tauto|].
    intros [H | H]; [exact H | congruence].
Qed.

Lemma keys_NoDup_append (category : string) (doc : Document) (g : Groups) :
  NoDup (map fst g) -> NoDup (map fst (dict_append category doc g)).
Proof.
  induction g as [|[k docs] g IH]; cbn [dict_append map fst]; intros Hnd.
  - repeat constructor. intros [].
  - inversion Hnd as [|? ? Hk Hg]; subst.
    destruct (String.eqb k category) eqn:Heq; cbn [map fst].
    + exact Hnd.
    + constructor; [|exact (IH Hg)].
      rewrite keys_dict_append. apply String.eqb_neq in Heq.
      intros [H | H]; [exact (Hk H) | exact (Heq H)].
Qed.

Lemma keys_NoDup_fold (documents : list Document) (g : Groups) :
  NoDup (map fst g) ->
  NoDup (map fst (fold_left
                    (fun d doc => dict_append (category (meta doc)) doc d)
                    documents g)).
Proof.
  revert g. induction documents as [|doc rest IH]; intros g Hnd; [exact Hnd|].
  cbn [fold_left]. apply IH, keys_NoDup_append, Hnd.
Qed.

Lemma category_group_lookup (documents : list Document) (label : string) :
  dict_get (group_by_category documents) label =
  match filter (fun doc => String.eqb (category (meta doc)) label) documents with
  | [] => inl (KeyError label)
  | found => inr found
  end.
Proof. unfold group_by_category. rewrite dict_get_fold. reflexivity. Qed.

End Grouping.

(** X17.  Looking a category up in [docs_by_category] gives the records of
    that category, in the order of the input; a category no record has is
    not a key, and the lookup raises [KeyError]. *)
Theorem category_group_is_filter (documents : list Document)
    (label : string) :
  dict_get (group_by_category documents) label =
  match filter (fun doc => String.eqb (category (meta doc)) label) documents with
  | [] => inl (KeyError label)
  | found => inr found
  end.
Proof. apply category_group_lookup. Qed.

Section GroupKeys.

Lemma group_keys_NoDup (documents : list Document) :
  NoDup (map fst (group_by_category documents)).
Proof. apply keys_NoDup_fold. constructor. Qed.

Lemma group_keys_In (documents : list Document) (label : string) :
  In label (map fst (group_by_category documents)) <->
  exists doc, In doc documents /\ category (meta doc) = label.
Proof.
  rewrite in_keys_dict_get, category_group_lookup. split.
  - intros [docs Hd].
    destruct (filter _ documents) as [|doc found] eqn:Hf; [discriminate|].
    assert (Hdoc : In doc (filter (fun doc => String.eqb (category (meta doc)) label)
                                  documents))
      by (rewrite Hf; left; reflexivity).
    apply filter_In in Hdoc as [Hdoc Hc]. apply String.eqb_eq in Hc.
    exists doc. split; assumption.
  - intros (doc & Hdoc & Hc).
    assert (Hf : In doc (filter (fun doc => String.eqb (category (meta doc)) label)
                                documents))
      by (apply filter_In; split; [exact Hdoc | apply String.eqb_eq, Hc]).
    destruct (filter _ documents); [contradiction | eexists; reflexivity].
Qed.

Lemma group_count (documents : list Document) :
  List.length (group_by_category documents)
  = List.length
      (nodup string_dec (map (fun doc => category (meta doc)) documents)).
Proof.
  rewrite <- (length_map fst). apply Permutation_length, NoDup_Permutation.
  - apply group_keys_NoDup.
  - apply NoDup_nodup.
  - intros label. rewrite group_keys_In, nodup_In, in_map_iff. split.
    + intros (doc & Hdoc & Hc). exists doc. split; assumption.
    + intros (doc & Hc & Hdoc). exists doc. split; assumption.
Qed.

End GroupKeys.

(** X18.  The keys of [docs_by_category] are the categories of the records,
    each once, so the Categories figure of the statistics is the number of
    distinct categories among the records. *)
Theorem categories_are_counted_once (documents : list Document) :
  let keys := map fst (group_by_category documents) in
  NoDup keys /\
  (forall label,
     In label keys <->
     exists doc, In doc documents /\ category (meta doc) = label) /\
  List.length (group_by_category documents)
  = List.length
      (nodup string_dec (map (fun doc => category (meta doc)) documents)).
Proof.
  cbv zeta. split; [apply group_keys_NoDup | split].
  - apply group_keys_In.
  - apply group_count.
Qed.

Section TagCloud.

Lemma set_add_In (s : list string) (x y : string) :
  In y (set_add s x) <-> In y s \/ y = x.
Proof.
  unfold set_add. destruct (existsb (String.eqb x) s) eqn:Hex.
  - apply existsb_exists in Hex as (z & Hz & Heq).
    apply String.eqb_eq in Heq. subst z. split; [tauto|].
    intros [H | ->]; assumption.
  - rewrite in_app_iff. cbn [In]. split; intros [H | H]; auto.
    + destruct H as [<- | []]. right. reflexivity.
Qed.

Lemma set_add_NoDup (s : list string) (x : string) :
  NoDup s -> NoDup (set_add s x).
Proof.
  intros Hnd. unfold set_add. destruct (existsb (String.eqb x) s) eqn:Hex;
    [exact Hnd|].
  apply NoDup_app; [exact Hnd | repeat constructor; intros [] |].
  intros y Hy [<- | []].
  rewrite <- not_true_iff_false in Hex. apply Hex.
  apply existsb_exists. exists x. split; [exact Hy | apply String.eqb_refl].
Qed.

Lemma set_update_In (l s : list string) (y : string) :
  In y (set_update s l) <-> In y s \/ In y l.
Proof.
  unfold set_update. revert s. induction l as [|x l IH]; intros s; cbn [fold_left].
  - cbn. tauto.
  - rewrite IH, set_add_In. cbn [In]. intuition congruence.
Qed.

Lemma set_update_NoDup (l s : list string) :
  NoDup s -> NoDup (set_update s l).
Proof.
  unfold set_update. revert s. induction l as [|x l IH]; intros s Hnd;
    [exact Hnd|].
  cbn [fold_left]. apply IH, set_add_NoDup, Hnd.
Qed.

Lemma collect_fold_In (documents : list Document) (s : list string) (y : string) :
  In y (fold_left (fun s doc => set_update s (tags (meta doc))) documents s) <->
  In y s \/ exists doc, In doc documents /\ In y (tags (meta doc)).
Proof.
  revert s. induction documents as [|doc rest IH]; intros s; cbn [fold_left].
  - split; [tauto|]. intros [H | (doc & [] & _)]. exact H.
  - rewrite IH, set_update_In. split.
    + intros [[H | H] | (d & Hd & Hy)].
      * left. exact H.
      * right. exists doc. split; [left; reflexivity | exact H].
      * right. exists d. split; [right; exact Hd | exact Hy].
    + intros [H | (d & [<- | Hd] & Hy)].
      * left. left. exact H.
      * left. right. exact Hy.
      * right. exists d. split; assumption.
Qed.

Lemma collect_fold_NoDup (documents : list Document) (s : list string) :
  NoDup s ->
  NoDup (fold_left (fun s doc => set_update s (tags (meta doc))) documents s).
Proof.
  revert s. induction documents as [|doc rest IH]; intros s Hnd; [exact Hnd|].
  cbn [fold_left]. apply IH, set_update_NoDup, Hnd.
Qed.

(** Without repetition, not-after is before. *)
Lemma strictly_sorted (l : list string) :
  StronglySorted str_le l -> NoDup l ->
  StronglySorted (fun a b => String.ltb a b = true) l.
Proof.
  induction 1 as [|a l Hs IH Ha]; intros Hnd; constructor.
  - apply IH. inversion Hnd. assumption.
  - inversion Hnd as [|? ? Hnotin _]; subst.
    rewrite Forall_forall in *. intros b Hb. specialize (Ha b Hb).
    unfold str_le in Ha. destruct (String.compare a b) eqn:Hc.
    + apply String.compare_eq_iff in Hc. subst b. contradiction.
    + apply ltb_compare, Hc.
    + apply ltb_flip in Hc. congruence.
Qed.

End TagCloud.

(** X19.  The tags printed under All Tags are the tags of the records, each
    once, in strictly increasing order. *)
Theorem tag_cloud_is_sorted_union (documents : list Document) :
  let cloud := sorted (fun t => t) String.ltb (collect_tags documents) in
  StronglySorted (fun a b => String.ltb a b = true) cloud /\
  NoDup cloud /\
  (forall tag,
     In tag cloud <->
     exists doc, In doc documents /\ In tag (tags (meta doc))).
Proof.
  cbv zeta.
  pose proof (sorted_perm (fun t : string => t) String.ltb
                (collect_tags documents)) as Hperm.
  assert (Hnd : NoDup (sorted (fun t => t) String.ltb (collect_tags documents))).
  { eapply Permutation_NoDup; [exact Hperm|].
    apply collect_fold_NoDup. constructor. }
  split; [|split].
  - apply strictly_sorted; [apply sorted_is_sorted | exact Hnd].
  - exact Hnd.
  - intros tag. split.
    + intros Hin. apply (Permutation_in _ (Permutation_sym Hperm)) in Hin.
      apply collect_fold_In in Hin as [[] | H]. exact H.
    + intros H. apply (Permutation_in _ Hperm).
      apply collect_fold_In. right. exact H.
Qed.

Section Sections.

Lemma concat_cons (x : string) (l : list string) :
  String.concat "" (x :: l) = (x ++ String.concat "" l)%string.
Proof.
  destruct l; cbn [String.concat]; [|reflexivity].
  symmetry. apply string_app_nil_r.
Qed.

Lemma category_sections_render (g : Groups) (labels : list string)
    (docs_of : string -> list Document) :
  (forall label, In label labels -> dict_get g label = inr (docs_of label)) ->
  category_sections g labels =
  inr (String.concat ""
         (map (fun label => category_section label (docs_of label)) labels)).
Proof.
  induction labels as [|label rest IH]; intros Hget; [reflexivity|].
  cbn [category_sections map]. rewrite (Hget label (or_introl eq_refl)).
  cbn [exc_bind]. rewrite IH by (intros l Hl; apply Hget; right; exact Hl).
  cbn [exc_bind]. rewrite concat_cons. reflexivity.
Qed.

Lemma group_sections_render (documents : list Document) :
  category_sections (group_by_category documents)
    (sorted (fun k => k) String.ltb (map fst (group_by_category documents)))
  = inr (String.concat ""
           (map (fun label =>
                   category_section label
                     (filter (fun doc => String.eqb (category (meta doc)) label)
                             documents))
                (sorted (fun k => k) String.ltb
                   (map fst (group_by_category documents))))).
Proof.
  apply (category_sections_render _ _
           (fun label => filter (fun doc => String.eqb (category (meta doc)) label)
                                documents)).
  intros label Hin. rewrite category_group_lookup.
  eapply Permutation_in in Hin;
    [|symmetry; apply (sorted_perm (fun k : string => k) String.ltb)].
  apply in_keys_dict_get in Hin as [docs Hd].
  rewrite category_group_lookup in Hd.
  destruct (filter _ documents); [discriminate Hd | reflexivity].
Qed.

End Sections.

(** X20.  The By Category part of the index has one section for each
    category some record has, the labels in strictly increasing order; the
    section of a label lists the records of that category, and no other,
    sorted by file name. *)
Theorem category_sections_by_label (documents : list Document) :
  let labels :=
    sorted (fun k => k) String.ltb (map fst (group_by_category documents)) in
  StronglySorted (fun a b => String.ltb a b = true) labels /\
  (forall label,
     In label labels <->
     exists doc, In doc documents /\ category (meta doc) = label) /\
  category_sections (group_by_category documents) labels =
  inr (String.concat ""
         (map (fun label =>
                 ("### " ++ label ++ nl
                  ++ String.concat ""
                       (map category_entry
                          (sorted name String.ltb
                             (filter (fun doc =>
                                        String.eqb (category (meta doc)) label)
                                     documents)))
                  ++ nl)%string)
              labels)).
Proof.
  cbv zeta.
  pose proof (sorted_perm (fun k : string => k) String.ltb
                (map fst (group_by_category documents))) as Hperm.
  assert (Hnd : NoDup (map fst (group_by_category documents)))
    by (apply keys_NoDup_fold; constructor).
  assert (Hkeys : forall label,
             In label (sorted (fun k => k) String.ltb
                         (map fst (group_by_category documents))) ->
             filter (fun doc => String.eqb (category (meta doc)) label) documents
             <> []).
  { intros label Hin. apply (Permutation_in _ (Permutation_sym Hperm)) in Hin.
    apply in_keys_dict_get in Hin as [docs Hd].
    rewrite category_group_lookup in Hd. intros Hempty.
    rewrite Hempty in Hd. discriminate Hd. }
  split; [|split].
  - apply strictly_sorted; [apply sorted_is_sorted|].
    eapply Permutation_NoDup; [exact Hperm | exact Hnd].
  - intros label. split.
    + intros Hin. apply Hkeys in Hin.
      destruct (filter _ documents) as [|doc found] eqn:Hf; [contradiction|].
      assert (Hdoc : In doc (filter (fun doc => String.eqb (category (meta doc)) label)
                                    documents))
        by (rewrite Hf; left; reflexivity).
      apply filter_In in Hdoc as [Hdoc Hc]. apply String.eqb_eq in Hc.
      exists doc. split; assumption.
    + intros (doc & Hdoc & Hc). apply (Permutation_in _ Hperm).
      apply in_keys_dict_get. rewrite category_group_lookup.
      assert (Hf : In doc (filter (fun doc => String.eqb (category (meta doc)) label)
                                  documents))
        by (apply filter_In; split; [exact Hdoc | apply String.eqb_eq, Hc]).
      destruct (filter _ documents); [contradiction | eexists; reflexivity].
  - apply group_sections_render.
Qed.

Section Ascending.

Context {A K : Type} (key : A -> K) (ltb : K -> K -> bool).

Hypothesis ltb_asym : forall a b, ltb a b = true -> ltb b a = false.
Hypothesis ltb_not_before :
  forall a b c, ltb a b = false -> ltb b c = false -> ltb a c = false.

Let not_after (a b : A) : Prop := ltb (key b) (key a) = false.

Lemma insert_asc_hd_by (x y : A) (l : list A) :
  HdRel not_after y l -> not_after y x ->
  HdRel not_after y (insert_asc key ltb x l).
Proof.
  intros Hhd Hyx. destruct l as [|z l]; cbn [insert_asc].
  - constructor. exact Hyx.
  - destruct (ltb (key z) (key x)); constructor.
    + inversion Hhd. assumption.
    + exact Hyx.
Qed.

Lemma insert_asc_sorted_by (x : A) (l : list A) :
  Sorted not_after l -> Sorted not_after (insert_asc key ltb x l).
Proof.
  induction l as [|y l IH]; intros Hs; cbn [insert_asc].
  - repeat constructor.
  - inversion Hs as [|? ? Hl Hhd]; subst.
    destruct (ltb (key y) (key x)) eqn:Hyx.
    + constructor; [apply IH, Hl|].
      apply insert_asc_hd_by; [exact Hhd | apply ltb_asym, Hyx].
    + constructor; [exact Hs|]. constructor. exact Hyx.
Qed.

Lemma sorted_sorted_by (l : list A) :
  StronglySorted not_after (sorted key ltb l).
Proof.
  apply Sorted_StronglySorted.
  - intros a b c Hab Hbc. exact (ltb_not_before _ _ _ Hbc Hab).
  - induction l as [|x l IH]; cbn; [constructor|].
    apply insert_asc_sorted_by, IH.
Qed.

Lemma insert_asc_filter (same : A -> bool) (x : A) (l : list A) :
  (forall a b, same a = true -> same b = true -> ltb (key a) (key b) = false) ->
  filter same (insert_asc key ltb x l) = filter same (x :: l).
Proof.
  intros Hsame. induction l as [|y l IH]; [reflexivity|].
  cbn [insert_asc]. destruct (ltb (key y) (key x)) eqn:Hyx; [|reflexivity].
  cbn [filter] in *. rewrite IH.
  destruct (same x) eqn:Hx; [|reflexivity].
  destruct (same y) eqn:Hy; [|reflexivity].
  rewrite (Hsame y x Hy Hx) in Hyx. discriminate.
Qed.

Lemma sorted_stable (same : A -> bool) (l : list A) :
  (forall a b, same a = true -> same b = true -> ltb (key a) (key b) = false) ->
  filter same (sorted key ltb l) = filter same l.
Proof.
  intros Hsame. induction l as [|x l IH]; [reflexivity|].
  cbn [sorted fold_right].
  rewrite (insert_asc_filter same x _ Hsame). cbn [filter].
  unfold sorted in IH. rewrite IH. reflexivity.
Qed.

End Ascending.

Section ByName.

Lemma string_ltb_asym (a b : string) :
  String.ltb a b = true -> String.ltb b a = false.
Proof. apply ltb_str_le. Qed.

Lemma string_ltb_not_before (a b c : string) :
  String.ltb a b = false -> String.ltb b c = false -> String.ltb a c = false.
Proof. intros Hab Hbc. exact (str_le_trans c b a Hbc Hab). Qed.

Lemma string_ltb_irrefl (a : string) : String.ltb a a = false.
Proof.
  destruct (String.ltb a a) eqn:H; [|reflexivity].
  pose proof (ltb_str_le a a H) as H'. unfold str_le in H'. congruence.
Qed.

End ByName.

(** X21.  Within a section the records are in the order of their file
    names, none before one whose name is smaller; records with the same
    file name keep the order of the input; and sorting neither drops nor
    repeats a record. *)
Theorem section_records_sorted_by_name (docs : list Document) :
  Permutation docs (sorted name String.ltb docs) /\
  StronglySorted (fun a b => String.ltb (name b) (name a) = false)
                 (sorted name String.ltb docs) /\
  (forall file_name,
     filter (fun doc => String.eqb (name doc) file_name)
            (sorted name String.ltb docs)
     = filter (fun doc => String.eqb (name doc) file_name) docs).
Proof.
  split; [apply sorted_perm | split].
  - exact (sorted_sorted_by name String.ltb string_ltb_asym
             string_ltb_not_before docs).
  - intros file_name. apply sorted_stable. intros a b Ha Hb.
    apply String.eqb_eq in Ha, Hb. rewrite Ha, Hb. apply string_ltb_irrefl.
Qed.

(** X22.  [generate_index] raises on no list of records -- every category
    looked up in [docs_by_category] is one of its keys, and the first
    record by date and the largest record are asked for only when there is
    a record -- and the index is this text: the heading with the time of
    generation and the number of records; the Quick Access lines; the
    sections by category; the statistics, with the number of records
    again, the number of distinct categories, the latest modification and
    the largest file, or N/A for both; the tags when there are any; the
    footer. *)
Theorem generate_index_never_raises {T : Platform} (now : Datetime.datetime)
    (documents : list Document) :
  generate_index now documents =
  inr (index_head ++ strftime_minutes now ++ nl
       ++ "> Total Documents: " ++ str_of_nat (List.length documents) ++ nl
       ++ nl
       ++ "## 🎯 Quick Access" ++ nl
       ++ String.concat "" (quick_access (by_date documents))
       ++ nl ++ "## 📁 By Category" ++ nl ++ nl
       ++ String.concat ""
            (map (fun label =>
                    category_section label
                      (filter (fun doc => String.eqb (category (meta doc)) label)
                              documents))
                 (sorted (fun k => k) String.ltb
                    (map fst (group_by_category documents))))
       ++ "## 📊 Statistics" ++ nl ++ nl
       ++ "- **Total Documents**: " ++ str_of_nat (List.length documents) ++ nl
       ++ "- **Categories**: "
       ++ str_of_nat
            (List.length
               (nodup string_dec
                  (map (fun doc => category (meta doc)) documents)))
       ++ nl
       ++ "- **Last Update**: "
       ++ match by_date documents with
          | latest :: _ => strftime_minutes (modified latest)
          | [] => "N/A"
          end
       ++ nl
       ++ "- **Largest Document**: "
       ++ match documents with
          | first :: others => name (max_from size Nat.ltb first others)
          | [] => "N/A"
          end
       ++ nl ++ nl
       ++ "## 🏷️ All Tags" ++ nl
       ++ match collect_tags documents with
          | _ :: _ =>
              join " " (sorted (fun t => t) String.ltb (collect_tags documents))
              ++ nl
          | [] => ""
          end
       ++ nl ++ "---" ++ nl
       ++ "*Auto-generated by update-index.py*" ++ nl)%string.
Proof.
  unfold generate_index.
  rewrite group_sections_render, group_count. cbn [exc_bind].
  assert (Hu : last_update (by_date documents)
               = inr match by_date documents with
                     | latest :: _ => strftime_minutes (modified latest)
                     | [] => "N/A"%string
                     end)
    by (destruct (by_date documents); reflexivity).
  assert (Hl : largest_document documents
               = inr match documents with
                     | first :: others => name (max_from size Nat.ltb first others)
                     | [] => "N/A"%string
                     end)
    by (destruct documents; reflexivity).
  rewrite Hu, Hl. cbn [exc_bind].
  destruct (collect_tags documents) as [|tag others];
    rewrite !string_app_assoc; reflexivity.
Qed.

(* ================================================================== *)
(** * The run *)
(* ================================================================== *)



(* ================================================================== *)
(** * Splitting and joining *)
(* ================================================================== *)

Section SplitJoin.

Lemma split_go_skip (sep t rest cur : string) :
  split_go sep (String.length t) cur (t ++ rest) = split_go sep 0 cur rest.
Proof.
  induction t as [|c t IH]; [reflexivity|].
  cbn [String.length append split_go]. exact IH.
Qed.

Lemma split_go_nonempty (sep : string) (skip : nat) (cur s : string) :
  split_go sep skip cur s <> [].
Proof.
  revert skip cur. induction s as [|c s IH]; intros skip cur; cbn [split_go].
  - discriminate.
  - destruct skip; [|apply IH].
    destruct (String.prefix sep (String c s)); [discriminate | apply IH].
Qed.

Lemma join_cons (sep x : string) (l : list string) :
  l <> [] -> join sep (x :: l) = (x ++ sep ++ join sep l)%string.
Proof. destruct l; [contradiction | reflexivity]. Qed.

Lemma join_split_go (sep : string) (n : nat) :
  sep <> ""%string ->
  forall s cur,
    String.length s <= n ->
    join sep (split_go sep 0 cur s) = (cur ++ s)%string.
Proof.
  intros Hsep. induction n as [|n IH]; intros s cur Hlen.
  - destruct s; [|cbn in Hlen; lia]. cbn. symmetry. apply string_app_nil_r.
  - destruct s as [|c s]; [cbn; symmetry; apply string_app_nil_r|].
    cbn [String.length] in Hlen. cbn [split_go].
    destruct (String.prefix sep (String c s)) eqn:Hp.
    + apply prefix_app in Hp as [r Hr].
      destruct sep as [|c0 sep']; [contradiction Hsep; reflexivity|].
      cbn [append] in Hr. injection Hr as -> ->.
      replace (String.length (String c0 sep') - 1) with (String.length sep')
        by (cbn [String.length]; lia).
      rewrite split_go_skip.
      rewrite join_cons by apply split_go_nonempty.
      rewrite IH.
      * reflexivity.
      * assert (Happ : forall a b, String.length (a ++ b)
                                   = String.length a + String.length b).
        { clear. intros a b. induction a; cbn; [reflexivity | congruence]. }
        rewrite Happ in Hlen. lia.
    + rewrite IH by lia. rewrite string_app_assoc. reflexivity.
Qed.

(** No line of a text holds a line feed. *)
Lemma split_go_lines_no_LF (s cur : string) :
  mentions LF cur = false ->
  Forall (fun line => mentions LF line = false) (split_go nl 0 cur s).
Proof.
  revert cur. induction s as [|c s IH]; intros cur Hcur; cbn [split_go].
  - repeat constructor. exact Hcur.
  - unfold nl at 1. cbn [String.prefix String.length Nat.sub].
    destruct (ascii_dec LF c) as [<- | Hc].
    + assert (Hp : String.prefix "" s = true) by (destruct s; reflexivity).
      rewrite Hp. constructor; [exact Hcur | apply IH; reflexivity].
    + apply IH. rewrite mentions_app, Hcur. cbn [mentions].
      rewrite orb_false_r. apply Ascii.eqb_neq. congruence.
Qed.

End SplitJoin.

(** X24.  Splitting a text at a separator that is not empty loses nothing:
    joining the pieces with the separator gives the text back.  So it is
    for the lines of a content, and for its paragraphs. *)
Theorem join_of_split (sep s : string) :
  sep <> ""%string -> join sep (split sep s) = s.
Proof.
  intros Hsep. unfold split.
  exact (join_split_go sep (String.length s) Hsep s ""%string (le_n _)).
Qed.

Lemma join_of_split_witness :
  join (nl ++ nl) (split (nl ++ nl) sample_short_text) = sample_short_text.
Proof. apply join_of_split. discriminate. Defined.

Section SingleLine.

Variable c : ascii.

Lemma mentions_app_left (a b : string) :
  mentions c (a ++ b) = false -> mentions c a = false.
Proof.
  rewrite mentions_app. intros H. apply orb_false_iff in H. apply H.
Qed.

Lemma mentions_app_right (a b : string) :
  mentions c (a ++ b) = false -> mentions c b = false.
Proof.
  rewrite mentions_app. intros H. apply orb_false_iff in H. apply H.
Qed.

Lemma lstrip_keeps_absent (s : string) :
  mentions c s = false -> mentions c (lstrip s) = false.
Proof.
  destruct (lstrip_suffix s) as [w Hw]. rewrite Hw at 1.
  apply mentions_app_right.
Qed.

Lemma rstrip_keeps_absent (s : string) :
  mentions c s = false -> mentions c (rstrip s) = false.
Proof.
  destruct (rstrip_prefix s) as (w & Hw & _). rewrite Hw at 1.
  apply mentions_app_left.
Qed.

Lemma strip_keeps_absent (s : string) :
  mentions c s = false -> mentions c (strip s) = false.
Proof. intros H. apply rstrip_keeps_absent, lstrip_keeps_absent, H. Qed.

Lemma slice_from_keeps_absent (n : nat) (s : string) :
  mentions c s = false -> mentions c (slice_from n s) = false.
Proof.
  revert s. induction n as [|n IH]; intros [|a s]; cbn [slice_from mentions];
    try exact (fun H => H).
  intros H. apply orb_false_iff in H as [_ H]. exact (IH s H).
Qed.

Lemma lstrip_char_keeps_absent (c0 : ascii) (s : string) :
  mentions c s = false -> mentions c (lstrip_char c0 s) = false.
Proof.
  induction s as [|a s IH]; [reflexivity|]. cbn [lstrip_char].
  destruct (Ascii.eqb a c0); [|exact (fun H => H)].
  cbn [mentions]. intros H. apply orb_false_iff in H as [_ H]. exact (IH H).
Qed.

End SingleLine.

(** X25.  The text of every header of a record is free of line feeds, and
    so is the title unless it is the one made from the file name. *)
Theorem headings_are_single_line {T : Platform} (fs : FileSystem)
    (file_path : string) :
  let record := fst (extract_metadata fs file_path) in
  Forall (fun h => mentions LF (text h) = false) (headers record) /\
  (title record = default_title file_path \/
   mentions LF (title record) = false).
Proof.
  cbv zeta. destruct (fs file_path) as [e | content] eqn:Hread.
  - rewrite (extract_metadata_unreadable _ _ _ Hread).
    split; [constructor | left; reflexivity].
  - rewrite (extract_metadata_readable _ _ _ Hread).
    cbn [fst headers title extracted].
    pose proof (split_go_lines_no_LF content ""%string eq_refl) as Hlines.
    fold (split nl content) in Hlines. rewrite Forall_forall in Hlines.
    split.
    + apply Forall_forall. intros h Hin.
      apply in_flat_map in Hin as (line & Hline & Hh).
      unfold line_headers in Hh.
      destruct (startswith "#" line); [|contradiction].
      destruct (split_ws line) as [|w ws]; [contradiction|].
      destruct (Nat.leb (len w) 3); [|contradiction].
      destruct Hh as [<- | []]. cbn [text].
      apply strip_keeps_absent, lstrip_char_keeps_absent, Hlines, Hline.
    + destruct (find _ (firstn 10 (split nl content))) as [line|] eqn:Hfind;
        [right | left; reflexivity].
      apply find_some in Hfind as [Hin _].
      apply strip_keeps_absent, slice_from_keeps_absent, Hlines.
      apply in_first_ten in Hin as (i & _ & Hnth).
      apply nth_error_In in Hnth. exact Hnth.
Qed.

(* ================================================================== *)
(** * What the snapshot keeps *)
(* ================================================================== *)

Section Persisted.

Lemma map_JString_injective (a b : list string) :
  map JString a = map JString b -> a = b.
Proof.
  revert b. induction a as [|x a IH]; intros [|y b] H; try discriminate;
    [reflexivity|].
  cbn [map] in H. injection H as -> H. f_equal. apply IH, H.
Qed.

Lemma entries_of_fields (documents1 documents2 : list Document) :
  map (fun doc => (path doc, title (meta doc), category (meta doc),
                   tags (meta doc), modified doc, size doc)) documents1
  = map (fun doc => (path doc, title (meta doc), category (meta doc),
                     tags (meta doc), modified doc, size doc)) documents2 ->
  map snapshot_entry documents1 = map snapshot_entry documents2.
Proof.
  revert documents2.
  induction documents1 as [|d1 rest1 IH]; intros [|d2 rest2] Hsame;
    try discriminate; [reflexivity|].
  cbn [map] in *. injection Hsame as Hp Ht Hc Hg Hm Hs Hrest.
  rewrite (IH rest2 Hrest).
  unfold snapshot_entry. rewrite Hp, Ht, Hc, Hg, Hm, Hs. reflexivity.
Qed.

Lemma fields_of_entries (documents1 documents2 : list Document) :
  map snapshot_entry documents1 = map snapshot_entry documents2 ->
  map (fun doc => (path doc, title (meta doc), category (meta doc),
                   tags (meta doc), size doc)) documents1
  = map (fun doc => (path doc, title (meta doc), category (meta doc),
                     tags (meta doc), size doc)) documents2.
Proof.
  revert documents2.
  induction documents1 as [|d1 rest1 IH]; intros [|d2 rest2] Hentries;
    try discriminate; [reflexivity|].
  cbn [map] in *. injection Hentries as Hp Ht Hc Hg _ Hs Hrest.
  apply map_JString_injective in Hg.
  rewrite (IH rest2 Hrest), Hp, Ht, Hc, Hg, Hs. reflexivity.
Qed.

End Persisted.

(** X26.  The snapshot keeps, of each record, the path, the title, the
    category, the tags, the modification time and the size, and nothing
    else: records that agree on these give the same snapshot, whatever
    their summaries, headers, names and full paths; and two lists of
    records with the same snapshot agree, record by record, on path, title,
    category, tags and size. *)
Theorem snapshot_keeps_six_fields (now : Datetime.datetime)
    (documents1 documents2 : list Document) :
  (map (fun doc => (path doc, title (meta doc), category (meta doc),
                    tags (meta doc), modified doc, size doc)) documents1
   = map (fun doc => (path doc, title (meta doc), category (meta doc),
                      tags (meta doc), modified doc, size doc)) documents2 ->
   snapshot now documents1 = snapshot now documents2) /\
  (snapshot now documents1 = snapshot now documents2 ->
   map (fun doc => (path doc, title (meta doc), category (meta doc),
                    tags (meta doc), size doc)) documents1
   = map (fun doc => (path doc, title (meta doc), category (meta doc),
                      tags (meta doc), size doc)) documents2).
Proof.
  split.
  - intros Hsame. unfold snapshot.
    rewrite (entries_of_fields _ _ Hsame).
    apply (f_equal (@List.length _)) in Hsame.
    rewrite !length_map in Hsame. rewrite Hsame. reflexivity.
  - unfold snapshot. intros Hsnap. injection Hsnap as _ Hentries.
    apply fields_of_entries, Hentries.
Qed.

Lemma snapshot_keeps_six_fields_witness :
  snapshot sample_now [sample_a]
  = snapshot sample_now
      [mk_document "a.md" "/elsewhere/a.md" "other name"
         (modified sample_a) 120
         (mk_metadata "A" "Uncategorized" [] "a summary" [mk_header 1 "A"])].
Proof.
  apply (proj1 (snapshot_keeps_six_fields sample_now _ _)). reflexivity.
Defined.

(* ================================================================== *)
(** * Letter case, and the outcome of a scan *)
(* ================================================================== *)

(** X27.  Category and tags do not look at letter case: two readable files
    whose contents differ by the case of letters only get the same category
    and the same tags. *)
Theorem category_and_tags_ignore_case {T : Platform} (fs : FileSystem)
    (path1 path2 content1 content2 : string) :
  fs path1 = inr content1 ->
  fs path2 = inr content2 ->
  str_lower content1 = str_lower content2 ->
  category (fst (extract_metadata fs path1))
    = category (fst (extract_metadata fs path2)) /\
  tags (fst (extract_metadata fs path1))
    = tags (fst (extract_metadata fs path2)).
Proof.
  intros H1 H2 Hlower.
  rewrite (extract_metadata_readable _ _ _ H1),
          (extract_metadata_readable _ _ _ H2).
  cbn [fst category tags extracted]. rewrite Hlower. split; reflexivity.
Qed.

Lemma category_and_tags_ignore_case_witness :
  category (fst (extract_metadata (T := ascii_utc)
                   (fun p => if String.eqb p "a.md" then inr "API Setup"%string
                             else inr "api setup"%string) "a.md"))
  = category (fst (extract_metadata (T := ascii_utc)
                     (fun p => if String.eqb p "a.md" then inr "API Setup"%string
                               else inr "api setup"%string) "b.md")).
Proof.
  exact (proj1 (category_and_tags_ignore_case (T := ascii_utc)
                  (fun p => if String.eqb p "a.md" then inr "API Setup"%string
                            else inr "api setup"%string)
                  "a.md" "b.md" _ _ eq_refl eq_refl eq_refl)).
Defined.

Section Outcome.

Context {T : Platform}.

Variable fs : FileSystem.





End Outcome.

